(** * New-Financial-Ai: retirement projection and portfolio reconciliation

    A shallow embedding of the two algorithmic cores of the dashboard:

    - the projection of [RetirementCalc] ([calculate], the portfolio total,
      the insurance term and the cash/plan synchronisation effects), and
    - the portfolio handlers of [App] (the [useState] initialisers, the
      add / remove / quantity / analyse handlers, [hasPendingSymbols]) with
      the part of [geminiService] they depend on ([extractJson],
      [analyzePortfolio]).

    Around them: the pie chart of [RetirementCalc], the filter and total of
    [StockTable], the schematic of [AnalysisChart], the credential lookup
    and the price rule of [geminiService], and the key dialog and trends of
    [App].

    JavaScript numbers are embedded as exact rationals extended with the
    IEEE special values, strings as [string] over ASCII code units, the
    [Record<string, number>] of quantities as a [gmap], React state as
    explicit state passing. *)

From Stdlib Require Import ZArith QArith Qcanon Qfield Qround String Ascii List
  Lia.
From stdpp Require Import base numbers gmap strings list fin_maps pretty.

Set Default Proof Using "Type".

(* ===================================================================== *)
(** * JavaScript numbers *)
(* ===================================================================== *)

(** A [number] is a finite value, an infinity or NaN.  Finite values are
    exact rationals: rounding is not modelled, and neither is the sign of
    zero (a zero denominator is read as +0). *)
Module JsNum.

Inductive num : Type :=
| Fin (q : Qc)
| PosInf
| NegInf
| NaN.

#[global] Instance num_eq_dec : EqDecision num.
Proof. solve_decision. Defined.

#[global] Instance num_inhabited : Inhabited num := populate (Fin 0%Qc).

Definition of_Z (z : Z) : num := Fin (Qc_of_Z z).
Definition of_frac (a : Z) (b : positive) : num := Fin (Q2Qc (a # b)).

Definition zero : num := of_Z 0.
Definition one : num := of_Z 1.

(** Sign of a value, used by multiplication and division with infinities:
    [Gt] positive, [Lt] negative, [Eq] zero. *)
Definition qsign (q : Qc) : comparison := (q ?= 0)%Qc.

Definition neg (a : num) : num :=
  match a with
  | Fin q => Fin (- q)%Qc
  | PosInf => NegInf
  | NegInf => PosInf
  | NaN => NaN
  end.

(** [a + b] *)
Definition add (a b : num) : num :=
  match a, b with
  | NaN, _ | _, NaN => NaN
  | Fin x, Fin y => Fin (x + y)%Qc
  | PosInf, NegInf | NegInf, PosInf => NaN
  | PosInf, _ | _, PosInf => PosInf
  | NegInf, _ | _, NegInf => NegInf
  end.

(** [a - b] *)
Definition sub (a b : num) : num := add a (neg b).

Definition inf_of_sign (s : comparison) : num :=
  match s with
  | Gt => PosInf
  | Lt => NegInf
  | Eq => NaN
  end.

Definition flip (s : comparison) : comparison := CompOpp s.

(** Sign of a product. *)
Definition sign_mul (s t : comparison) : comparison :=
  match s, t with
  | Eq, _ | _, Eq => Eq
  | Gt, Gt | Lt, Lt => Gt
  | Gt, Lt | Lt, Gt => Lt
  end.

(** [a * b]: zero times an infinity is NaN. *)
Definition mul (a b : num) : num :=
  match a, b with
  | NaN, _ | _, NaN => NaN
  | Fin x, Fin y => Fin (x * y)%Qc
  | Fin x, PosInf | PosInf, Fin x => inf_of_sign (qsign x)
  | Fin x, NegInf | NegInf, Fin x => inf_of_sign (flip (qsign x))
  | PosInf, PosInf | NegInf, NegInf => PosInf
  | PosInf, NegInf | NegInf, PosInf => NegInf
  end.

(** [a / b]: a finite non-zero value over zero is an infinity, zero over
    zero and infinity over infinity are NaN. *)
Definition div (a b : num) : num :=
  match a, b with
  | NaN, _ | _, NaN => NaN
  | Fin x, Fin y =>
      if decide (y = 0%Qc) then inf_of_sign (qsign x) else Fin (x / y)%Qc
  | Fin _, (PosInf | NegInf) => Fin 0%Qc
  | PosInf, Fin y => match qsign y with Lt => NegInf | _ => PosInf end
  | NegInf, Fin y => match qsign y with Lt => PosInf | _ => NegInf end
  | (PosInf | NegInf), (PosInf | NegInf) => NaN
  end.

(** [Math.pow(x, n)] for a non-negative whole exponent: [Math.pow(x, 0)]
    is 1 for every [x], NaN included. *)
Fixpoint pow_nat (x : num) (n : nat) : num :=
  match n with
  | O => one
  | S n' => mul x (pow_nat x n')
  end.

(** [Math.pow(x, n)] for a whole exponent. *)
Definition Math_pow (x : num) (n : Z) : num :=
  if (n <? 0)%Z then div one (pow_nat x (Z.to_nat (- n)))
  else pow_nat x (Z.to_nat n).

(** [a <= b] and [a >= b]: every comparison with NaN is false. *)
Definition leb (a b : num) : bool :=
  match a, b with
  | NaN, _ | _, NaN => false
  | NegInf, _ | _, PosInf => true
  | Fin x, Fin y => bool_decide (x <= y)%Qc
  | _, _ => false
  end.

Definition geb (a b : num) : bool := leb b a.

(** [Math.max(a, b)]: NaN when either argument is. *)
Definition Math_max (a b : num) : num :=
  match a, b with
  | NaN, _ | _, NaN => NaN
  | _, _ => if leb a b then b else a
  end.

(** [a !== b]: NaN differs from everything, itself included. *)
Definition strict_neq (a b : num) : bool :=
  match a, b with
  | NaN, _ | _, NaN => true
  | _, _ => bool_decide (a <> b)
  end.

(** Truthiness of a number: [0] and [NaN] are falsy. *)
Definition truthy (a : num) : bool :=
  match a with
  | NaN => false
  | Fin q => bool_decide (q <> 0%Qc)
  | _ => true
  end.

(** [v || d] where [v] is a number or [undefined]. *)
Definition or_default (v : option num) (d : num) : num :=
  match v with
  | Some a => if truthy a then a else d
  | None => d
  end.

Definition is_finite (a : num) : Prop := exists q, a = Fin q.

End JsNum.

Export JsNum.

Declare Scope js_scope.
Delimit Scope js_scope with js.
Bind Scope js_scope with num.
Infix "+" := add : js_scope.
Infix "-" := sub : js_scope.
Infix "*" := mul : js_scope.
Infix "/" := div : js_scope.

(* ===================================================================== *)
(** * types.ts *)
(* ===================================================================== *)

Inductive Recommendation : Type := BUY | SELL | HOLD.

#[global] Instance Recommendation_eq_dec : EqDecision Recommendation.
Proof. solve_decision. Defined.

Record StockAnalysis : Type := mkStockAnalysis {
  symbol : string;
  name : string;
  marketCap : string;
  high52Week : num;
  low52Week : num;
  currentPrice : num;
  suggestBuyPrice : num;
  suggestSellPrice : num;
  recommendation : Recommendation;
  analysis : string;
  projectedAnnualYield : string;
  exampleScenario : string
}.

#[global] Instance StockAnalysis_eq_dec : EqDecision StockAnalysis.
Proof. solve_decision. Defined.

(** The plan.  Ages and the insurance year are whole years, as the data
    model has them; the other fields are numbers. *)
Record RetirementPlan : Type := mkRetirementPlan {
  currentAge : Z;
  retirementAge : Z;
  currentSavings : num;
  monthlySavings : num;
  targetMonthlyPension : num;
  expectedAnnualReturn : num;
  insurancePrincipal : num;
  insuranceRate : num;
  insuranceYearDone : Z
}.

#[global] Instance RetirementPlan_eq_dec : EqDecision RetirementPlan.
Proof. solve_decision. Defined.

Record RetirementResult : Type := mkRetirementResult {
  yearsToRetire : Z;
  totalAccumulated : num;
  monthlyPensionPossible : num;
  isGoalReachable : bool;
  shortfall : num;
  advice : string
}.

#[global] Instance RetirementResult_eq_dec : EqDecision RetirementResult.
Proof. solve_decision. Defined.

(** ** localStorage reads *)

(** What [localStorage.getItem(k)] followed by [saved ? JSON.parse(saved) : d]
    does: the key is absent (or holds the empty string), the text does not
    parse and [JSON.parse] throws, or it parses to a value. *)
Inductive Stored (A : Type) : Type :=
| Absent
| Unparseable
| Json (v : A).
Arguments Absent {A}.
Arguments Unparseable {A}.
Arguments Json {A} v.

#[global] Instance Stored_eq_dec {A} `{EqDecision A} : EqDecision (Stored A).
Proof. solve_decision. Defined.

(* ===================================================================== *)
(** * RetirementCalc: the projection *)
(* ===================================================================== *)

Module RetirementCalc.

Local Open Scope Z_scope.

Section Projection.

(** [new Date().getFullYear()] at render time. *)
Variable currentYear : Z.

(** The values derived from the plan on every render. *)
Definition plan_yearsToRetire (plan : RetirementPlan) : Z :=
  retirementAge plan - currentAge plan.

Definition retireYear (plan : RetirementPlan) : Z :=
  currentYear + plan_yearsToRetire plan.

Definition insuranceCompoundingYears (plan : RetirementPlan) : Z :=
  Z.max 0 (retireYear plan - insuranceYearDone plan).

(** The locals of [calculate], in the order the body computes them. *)
Definition monthlyRate (plan : RetirementPlan) : num :=
  (expectedAnnualReturn plan / of_Z 100 / of_Z 12)%js.

Definition months (plan : RetirementPlan) : Z := plan_yearsToRetire plan * 12.

Definition fvLumpSum (plan : RetirementPlan) : num :=
  (currentSavings plan * Math_pow (one + monthlyRate plan) (months plan))%js.

Definition fvMonthly (plan : RetirementPlan) : num :=
  (monthlySavings plan *
   ((Math_pow (one + monthlyRate plan) (months plan) - one) / monthlyRate plan))%js.

Definition fvInsurance (plan : RetirementPlan) : num :=
  (insurancePrincipal plan *
   Math_pow (one + insuranceRate plan / of_Z 100) (insuranceCompoundingYears plan))%js.

Definition calc_totalAccumulated (plan : RetirementPlan) : num :=
  (fvLumpSum plan + fvMonthly plan + fvInsurance plan)%js.

(** The literal [0.04]. *)
Definition swr : num := of_frac 4 100.

Definition calcResult (plan : RetirementPlan) : RetirementResult :=
  let total := calc_totalAccumulated plan in
  let safeAnnualWithdrawal := (total * swr)%js in
  let pension := (safeAnnualWithdrawal / of_Z 12)%js in
  let requiredTotal := (targetMonthlyPension plan * of_Z 12 / swr)%js in
  {| yearsToRetire := plan_yearsToRetire plan;
     totalAccumulated := total;
     monthlyPensionPossible := pension;
     isGoalReachable := geb pension (targetMonthlyPension plan);
     shortfall := Math_max zero (requiredTotal - total)%js;
     advice := "" |}.

(** [calculate]: the stored [result] is threaded through; the early
    [return] leaves it as it is, otherwise [setResult] replaces it. *)
Definition calculate (plan : RetirementPlan) (result : option RetirementResult)
  : option RetirementResult :=
  if plan_yearsToRetire plan <=? 0 then result
  else Some (calcResult plan).

End Projection.

(** ** Persisted plan *)

(** The object parsed from ['finance_retirement_plan']: any field may be
    missing. *)
Record PlanJson : Type := mkPlanJson {
  j_currentAge : option Z;
  j_retirementAge : option Z;
  j_currentSavings : option num;
  j_monthlySavings : option num;
  j_targetMonthlyPension : option num;
  j_expectedAnnualReturn : option num;
  j_insurancePrincipal : option num;
  j_insuranceRate : option num;
  j_insuranceYearDone : option Z
}.

#[global] Instance PlanJson_eq_dec : EqDecision PlanJson.
Proof. solve_decision. Defined.

Definition emptyPlanJson : PlanJson :=
  mkPlanJson None None None None None None None None None.

(** [v || d] on a whole-number field. *)
Definition or_default_Z (v : option Z) (d : Z) : Z :=
  match v with
  | Some z => if z =? 0 then d else z
  | None => d
  end.

Definition defaultPlan : RetirementPlan :=
  {| currentAge := 30; retirementAge := 65;
     currentSavings := of_Z 1000000; monthlySavings := of_Z 20000;
     targetMonthlyPension := of_Z 50000; expectedAnnualReturn := of_Z 6;
     insurancePrincipal := of_Z 200000; insuranceRate := of_frac 25 10;
     insuranceYearDone := 2022 |}.

(** The [useState] initialiser of [plan]. *)
Definition initialPlan (saved : Stored PlanJson) : RetirementPlan :=
  match saved with
  | Unparseable => defaultPlan
  | Absent | Json _ =>
      let parsed := match saved with Json o => o | _ => emptyPlanJson end in
      {| currentAge := or_default_Z (j_currentAge parsed) 30;
         retirementAge := or_default_Z (j_retirementAge parsed) 65;
         currentSavings := or_default (j_currentSavings parsed) (of_Z 1000000);
         monthlySavings := or_default (j_monthlySavings parsed) (of_Z 20000);
         targetMonthlyPension :=
           or_default (j_targetMonthlyPension parsed) (of_Z 50000);
         expectedAnnualReturn :=
           or_default (j_expectedAnnualReturn parsed) (of_Z 6);
         insurancePrincipal :=
           or_default (j_insurancePrincipal parsed) (of_Z 200000);
         insuranceRate := or_default (j_insuranceRate parsed) (of_frac 25 10);
         insuranceYearDone := or_default_Z (j_insuranceYearDone parsed) 2022 |}
  end.

(** [JSON.stringify] writes [null] for a number that is not finite. *)
Definition json_num (a : num) : option num :=
  match a with
  | Fin _ => Some a
  | _ => None
  end.

Definition stringify_plan (p : RetirementPlan) : PlanJson :=
  {| j_currentAge := Some (currentAge p);
     j_retirementAge := Some (retirementAge p);
     j_currentSavings := json_num (currentSavings p);
     j_monthlySavings := json_num (monthlySavings p);
     j_targetMonthlyPension := json_num (targetMonthlyPension p);
     j_expectedAnnualReturn := json_num (expectedAnnualReturn p);
     j_insurancePrincipal := json_num (insurancePrincipal p);
     j_insuranceRate := json_num (insuranceRate p);
     j_insuranceYearDone := Some (insuranceYearDone p) |}.

(** ** Props and the portfolio total *)

Record Props : Type := mkProps {
  portfolioStocks : list StockAnalysis;
  stockQuantities : gmap string num
}.

(** [portfolioStocks.reduce((sum, stock) => ..., 0)] *)
Definition portfolioTotalValue (props : Props) : num :=
  fold_left
    (fun sum stock =>
       let qty := or_default (stockQuantities props !! symbol stock) zero in
       (sum + currentPrice stock * qty)%js)
    (portfolioStocks props) zero.

(** ** Component state and effects *)

(** The state of one mounted [RetirementCalc], with what React keeps to
    decide which effects run: the dependency values of the last commit.
    [plan_id] stands for the identity of the [plan] object ([setPlan] always
    builds a fresh object); [sync_deps = None] before the first commit. *)
Record Fiber : Type := mkFiber {
  plan : RetirementPlan;
  plan_id : nat;
  cashSavings : num;
  result : option RetirementResult;
  sync_deps : option (num * num);
  persist_dep : option nat;
  saved_plan : Stored PlanJson
}.

#[global] Instance Fiber_eq_dec : EqDecision Fiber.
Proof. solve_decision. Defined.

Definition initialFiber (saved : Stored PlanJson) : Fiber :=
  {| plan := initialPlan saved; plan_id := 0%nat; cashSavings := zero;
     result := None; sync_deps := None; persist_dep := None;
     saved_plan := saved |}.

(** [{ ...prev, currentSavings: v }] *)
Definition with_currentSavings (p : RetirementPlan) (v : num) : RetirementPlan :=
  {| currentAge := currentAge p; retirementAge := retirementAge p;
     currentSavings := v; monthlySavings := monthlySavings p;
     targetMonthlyPension := targetMonthlyPension p;
     expectedAnnualReturn := expectedAnnualReturn p;
     insurancePrincipal := insurancePrincipal p;
     insuranceRate := insuranceRate p;
     insuranceYearDone := insuranceYearDone p |}.

Section Effects.

Variable currentYear : Z.

(** One render followed by its effects.  All three effects read the values
    of this render ([plan], [cashSavings], [portfolioTotalValue]); their
    state updates show in the next render.
    - mount effect (deps [[]]): [setCashSavings(max(0, currentSavings - total))];
    - sync effect (deps [[cashSavings, portfolioTotalValue]]): [setPlan] when
      [plan.currentSavings !== cashSavings + portfolioTotalValue];
    - persist effect (deps [[plan]]): write the plan, then [calculate()]. *)
Definition commit (props : Props) (f : Fiber) : Fiber :=
  let pv := portfolioTotalValue props in
  let cash := cashSavings f in
  let run_mount := bool_decide (sync_deps f = None) in
  let run_sync := bool_decide (sync_deps f <> Some (cash, pv)) in
  let totalInvestableAssets := (cash + pv)%js in
  let set_plan :=
    run_sync && strict_neq (currentSavings (plan f)) totalInvestableAssets in
  let run_persist := bool_decide (persist_dep f <> Some (plan_id f)) in
  {| plan := if set_plan
             then with_currentSavings (plan f) totalInvestableAssets
             else plan f;
     plan_id := if set_plan then S (plan_id f) else plan_id f;
     cashSavings := if run_mount
                    then Math_max zero (currentSavings (plan f) - pv)%js
                    else cash;
     result := if run_persist
               then calculate currentYear (plan f) (result f)
               else result f;
     sync_deps := Some (cash, pv);
     persist_dep := Some (plan_id f);
     saved_plan := if run_persist
                   then Json (stringify_plan (plan f))
                   else saved_plan f |}.

(** React renders again while state updates are pending; three commits
    always reach a state no further commit changes (see [settle_stable]). *)
Definition settle (props : Props) (f : Fiber) : Fiber :=
  Nat.iter 3 (commit props) f.

(** ** Handlers *)

(** [handleCashChange]: [setCashSavings(Number(value))] *)
Definition handleCashChange (value : num) (f : Fiber) : Fiber :=
  {| plan := plan f; plan_id := plan_id f; cashSavings := value;
     result := result f; sync_deps := sync_deps f;
     persist_dep := persist_dep f; saved_plan := saved_plan f |}.

(** [keyof RetirementPlan] with the [Number(value)] to store. *)
Inductive FieldInput : Type :=
| In_currentAge (v : Z)
| In_retirementAge (v : Z)
| In_currentSavings (v : num)
| In_monthlySavings (v : num)
| In_targetMonthlyPension (v : num)
| In_expectedAnnualReturn (v : num)
| In_insurancePrincipal (v : num)
| In_insuranceRate (v : num)
| In_insuranceYearDone (v : Z).

(** [{ ...prev, [field]: Number(value) }] *)
Definition set_field (p : RetirementPlan) (i : FieldInput) : RetirementPlan :=
  match i with
  | In_currentAge v =>
      mkRetirementPlan v (retirementAge p) (currentSavings p)
        (monthlySavings p) (targetMonthlyPension p) (expectedAnnualReturn p)
        (insurancePrincipal p) (insuranceRate p) (insuranceYearDone p)
  | In_retirementAge v =>
      mkRetirementPlan (currentAge p) v (currentSavings p)
        (monthlySavings p) (targetMonthlyPension p) (expectedAnnualReturn p)
        (insurancePrincipal p) (insuranceRate p) (insuranceYearDone p)
  | In_currentSavings v => with_currentSavings p v
  | In_monthlySavings v =>
      mkRetirementPlan (currentAge p) (retirementAge p) (currentSavings p)
        v (targetMonthlyPension p) (expectedAnnualReturn p)
        (insurancePrincipal p) (insuranceRate p) (insuranceYearDone p)
  | In_targetMonthlyPension v =>
      mkRetirementPlan (currentAge p) (retirementAge p) (currentSavings p)
        (monthlySavings p) v (expectedAnnualReturn p)
        (insurancePrincipal p) (insuranceRate p) (insuranceYearDone p)
  | In_expectedAnnualReturn v =>
      mkRetirementPlan (currentAge p) (retirementAge p) (currentSavings p)
        (monthlySavings p) (targetMonthlyPension p) v
        (insurancePrincipal p) (insuranceRate p) (insuranceYearDone p)
  | In_insurancePrincipal v =>
      mkRetirementPlan (currentAge p) (retirementAge p) (currentSavings p)
        (monthlySavings p) (targetMonthlyPension p) (expectedAnnualReturn p)
        v (insuranceRate p) (insuranceYearDone p)
  | In_insuranceRate v =>
      mkRetirementPlan (currentAge p) (retirementAge p) (currentSavings p)
        (monthlySavings p) (targetMonthlyPension p) (expectedAnnualReturn p)
        (insurancePrincipal p) v (insuranceYearDone p)
  | In_insuranceYearDone v =>
      mkRetirementPlan (currentAge p) (retirementAge p) (currentSavings p)
        (monthlySavings p) (targetMonthlyPension p) (expectedAnnualReturn p)
        (insurancePrincipal p) (insuranceRate p) v
  end.

(** [handleInputChange]: [setPlan(prev => ({ ...prev, [field]: Number(value) }))] *)
Definition handleInputChange (i : FieldInput) (f : Fiber) : Fiber :=
  {| plan := set_field (plan f) i; plan_id := S (plan_id f);
     cashSavings := cashSavings f; result := result f;
     sync_deps := sync_deps f; persist_dep := persist_dep f;
     saved_plan := saved_plan f |}.

(** What can happen to a mounted component: an [onChange] of one of the
    inputs the JSX renders (the cash input and eight plan fields; no input
    is bound to [currentSavings]), or a render of the parent with new
    [portfolioStocks] / [stockQuantities]. *)
Inductive Event : Type :=
| CashInput (value : num)
| AgeInput (v : Z)
| RetirementAgeInput (v : Z)
| ReturnInput (v : num)
| InsurancePrincipalInput (v : num)
| InsuranceRateInput (v : num)
| InsuranceYearInput (v : Z)
| MonthlySavingsInput (v : num)
| PensionInput (v : num)
| PortfolioChange (props : Props).

Definition dispatch (e : Event) (f : Fiber) : Fiber :=
  match e with
  | CashInput v => handleCashChange v f
  | AgeInput v => handleInputChange (In_currentAge v) f
  | RetirementAgeInput v => handleInputChange (In_retirementAge v) f
  | ReturnInput v => handleInputChange (In_expectedAnnualReturn v) f
  | InsurancePrincipalInput v => handleInputChange (In_insurancePrincipal v) f
  | InsuranceRateInput v => handleInputChange (In_insuranceRate v) f
  | InsuranceYearInput v => handleInputChange (In_insuranceYearDone v) f
  | MonthlySavingsInput v => handleInputChange (In_monthlySavings v) f
  | PensionInput v => handleInputChange (In_targetMonthlyPension v) f
  | PortfolioChange _ => f
  end.

Definition next_props (e : Event) (props : Props) : Props :=
  match e with
  | PortfolioChange props' => props'
  | _ => props
  end.

(** The component together with the props of its last render. *)
Definition step (e : Event) (c : Fiber * Props) : Fiber * Props :=
  let props' := next_props e c.2 in
  (settle props' (dispatch e c.1), props').

Definition mount (saved : Stored PlanJson) (props : Props) : Fiber * Props :=
  (settle props (initialFiber saved), props).

Definition run (es : list Event) (c : Fiber * Props) : Fiber * Props :=
  fold_left (fun c e => step e c) es c.

(** What the last commit recorded as dependencies of the sync effect is
    what the plan's savings add up to. *)
Definition synced (f : Fiber) : Prop :=
  match sync_deps f with
  | None => True
  | Some (cash, pv) => currentSavings (plan f) = (cash + pv)%js
  end.

(** No commit changes the component any more, and it is [synced]. *)
Definition settled (c : Fiber * Props) : Prop :=
  commit c.2 c.1 = c.1 /\ synced c.1.

End Effects.

End RetirementCalc.

(* ===================================================================== *)
(** * String operations used by the handlers *)
(* ===================================================================== *)

Module JsString.

Local Open Scope char_scope.

(** The character class of the regular expression [/[, ]+/]: a comma or a
    space (U+0020). *)
Definition is_separator (c : ascii) : bool :=
  (c =? ",") || (c =? " ").

(** [s.split(/[, ]+/)]: the pieces between maximal runs of separators.  A
    string that starts (ends) with a separator yields an empty first (last)
    piece, and the empty string yields one empty piece.  [in_sep] tells that
    the previous character was a separator. *)
Fixpoint split_from (in_sep : bool) (s : string) : list string :=
  match s with
  | EmptyString => [EmptyString]
  | String c s' =>
      if is_separator c then
        if in_sep then split_from true s'
        else EmptyString :: split_from true s'
      else
        match split_from false s' with
        | t :: ts => String c t :: ts
        | [] => [String c EmptyString]
        end
  end.

Definition split (s : string) : list string := split_from false s.

(** White space and line terminators among the ASCII code units: TAB, LF,
    VT, FF, CR and SPACE. *)
Definition is_whitespace (c : ascii) : bool :=
  let n := N_of_ascii c in
  ((9 <=? n) && (n <=? 13) || (n =? 32))%N.

Fixpoint trimStart (s : string) : string :=
  match s with
  | EmptyString => EmptyString
  | String c s' => if is_whitespace c then trimStart s' else s
  end.

Fixpoint trimEnd (s : string) : string :=
  match s with
  | EmptyString => EmptyString
  | String c s' =>
      match trimEnd s' with
      | EmptyString => if is_whitespace c then EmptyString
                       else String c EmptyString
      | t => String c t
      end
  end.

(** [s.trim()] *)
Definition trim (s : string) : string := trimEnd (trimStart s).

Definition upper_char (c : ascii) : ascii :=
  let n := N_of_ascii c in
  if ((97 <=? n) && (n <=? 122))%N then ascii_of_N (n - 32) else c.

(** [s.toUpperCase()] *)
Fixpoint toUpperCase (s : string) : string :=
  match s with
  | EmptyString => EmptyString
  | String c s' => String (upper_char c) (toUpperCase s')
  end.

End JsString.

(* ===================================================================== *)
(** * geminiService: what the handlers see of it *)
(* ===================================================================== *)

Module GeminiService.

(** What [extractJson] meets in a response text: the candidate it selects
    (the fenced block, else the first bracketed span, else the whole text)
    makes [JSON.parse] throw, or parses to a batch. *)
Inductive ResponseText : Type :=
| NotJson
| JsonArray (data : list StockAnalysis).

(** [extractJson]: the [catch] logs and returns [[]]. *)
Definition extractJson (text : ResponseText) : list StockAnalysis :=
  match text with
  | JsonArray data => data
  | NotJson => []
  end.

(** How the request ends: [getAIClient] throws or [generateContent] rejects
    (missing or invalid key, network failure), or a response arrives, whose
    [text] may be missing. *)
Inductive Completion : Type :=
| Rejected
| Fulfilled (text : option ResponseText).

(** [analyzePortfolio]: [None] when the returned promise rejects.  No text
    is read as ["[]"]. *)
Definition analyzePortfolio (symbols : list string) (c : Completion)
  : option (list StockAnalysis) :=
  match symbols with
  | [] => Some []
  | _ =>
      match c with
      | Rejected => None
      | Fulfilled text => Some (extractJson (default (JsonArray []) text))
      end
  end.

End GeminiService.

(* ===================================================================== *)
(** * App: the three collections and their handlers *)
(* ===================================================================== *)

Module App.

Import JsString GeminiService.

Record LocalStorage : Type := mkLocalStorage {
  finance_portfolio_symbols : Stored (list string);
  finance_stock_quantities : Stored (gmap string num);
  finance_portfolio_data : Stored (list StockAnalysis)
}.

#[global] Instance LocalStorage_eq_dec : EqDecision LocalStorage.
Proof. solve_decision. Defined.

Record AppState : Type := mkAppState {
  mySymbols : list string;
  stockQuantities : gmap string num;
  portfolioStocks : list StockAnalysis;
  inputSymbol : string;
  errorMsg : option string;
  portfolioLoading : bool;
  storage : LocalStorage
}.

#[global] Instance AppState_eq_dec : EqDecision AppState.
Proof. solve_decision. Defined.

(** ** Initialisation *)

(** [Object.keys(qtyMap)]; the order is the one the map enumerates in. *)
Definition Object_keys (m : gmap string num) : list string :=
  (map_to_list m).*1.

(** Initialiser of [stockQuantities]. *)
Definition init_stockQuantities (ls : LocalStorage) : gmap string num :=
  match finance_stock_quantities ls with
  | Json m => m
  | _ => ∅
  end.

Definition set_symbols (ls : LocalStorage) (l : list string) : LocalStorage :=
  {| finance_portfolio_symbols := Json l;
     finance_stock_quantities := finance_stock_quantities ls;
     finance_portfolio_data := finance_portfolio_data ls |}.

Definition set_quantities (ls : LocalStorage) (m : gmap string num)
  : LocalStorage :=
  {| finance_portfolio_symbols := finance_portfolio_symbols ls;
     finance_stock_quantities := Json m;
     finance_portfolio_data := finance_portfolio_data ls |}.

Definition set_data (ls : LocalStorage) (d : list StockAnalysis) : LocalStorage :=
  {| finance_portfolio_symbols := finance_portfolio_symbols ls;
     finance_stock_quantities := finance_stock_quantities ls;
     finance_portfolio_data := Json d |}.

(** The recovery branch, entered when [symbols.length === 0]: [None] when
    [JSON.parse(savedQty)] throws. *)
Definition recover_symbols (ls : LocalStorage)
  : option (list string * LocalStorage) :=
  match finance_stock_quantities ls with
  | Absent => Some ([], ls)
  | Unparseable => None
  | Json qtyMap =>
      let recoveredSymbols := Object_keys qtyMap in
      match recoveredSymbols with
      | [] => Some ([], ls)
      | _ => Some (recoveredSymbols, set_symbols ls recoveredSymbols)
      end
  end.

(** Initialiser of [mySymbols], with the storage it leaves: the whole body
    is in one [try]; the [catch] returns [[]]. *)
Definition init_mySymbols (ls : LocalStorage) : list string * LocalStorage :=
  match finance_portfolio_symbols ls with
  | Unparseable => ([], ls)
  | Json (s :: l) => (s :: l, ls)
  | Absent | Json [] => default ([], ls) (recover_symbols ls)
  end.

(** Initialiser of [portfolioStocks]. *)
Definition init_portfolioStocks (ls : LocalStorage) : list StockAnalysis :=
  match finance_portfolio_data ls with
  | Json d => d
  | _ => []
  end.

(** The three backup effects: each writes its collection back. *)
Definition persist_effects (st : AppState) : AppState :=
  {| mySymbols := mySymbols st; stockQuantities := stockQuantities st;
     portfolioStocks := portfolioStocks st; inputSymbol := inputSymbol st;
     errorMsg := errorMsg st; portfolioLoading := portfolioLoading st;
     storage := {| finance_portfolio_symbols := Json (mySymbols st);
                   finance_stock_quantities := Json (stockQuantities st);
                   finance_portfolio_data := Json (portfolioStocks st) |} |}.

(** The state once the initialisers have run, in source order. *)
Definition initialState (ls : LocalStorage) : AppState :=
  let quantities := init_stockQuantities ls in
  let '(symbols, ls') := init_mySymbols ls in
  {| mySymbols := symbols; stockQuantities := quantities;
     portfolioStocks := init_portfolioStocks ls'; inputSymbol := "";
     errorMsg := None; portfolioLoading := false; storage := ls' |}.

(** The first render followed by the backup effects. *)
Definition mountApp (ls : LocalStorage) : AppState :=
  persist_effects (initialState ls).

(** ** Handlers *)

(** The callback of [map] in [handleAddSymbol]. *)
Definition clean_symbol (s : string) : string :=
  let cleanS := toUpperCase (trim s) in
  if String.eqb cleanS "304" then "3042" else cleanS.

Definition newSymbols (input : string) : list string :=
  filter (fun s => 0 < String.length s) (clean_symbol <$> split input).

Definition uniqueNewSymbols (symbols : list string) (input : string)
  : list string :=
  filter (fun s => s ∉ symbols) (newSymbols input).

Definition handleAddSymbol (st : AppState) : AppState :=
  match inputSymbol st with
  | EmptyString => st
  | _ =>
      match uniqueNewSymbols (mySymbols st) (inputSymbol st) with
      | [] => st
      | added =>
          let updatedList := mySymbols st ++ added in
          {| mySymbols := updatedList; stockQuantities := stockQuantities st;
             portfolioStocks := portfolioStocks st; inputSymbol := "";
             errorMsg := errorMsg st; portfolioLoading := portfolioLoading st;
             storage := set_symbols (storage st) updatedList |}
      end
  end.

Definition handleRemoveSymbol (symbolToRemove : string) (st : AppState)
  : AppState :=
  let updatedList := filter (fun s => s <> symbolToRemove) (mySymbols st) in
  let updated :=
    filter (fun s => symbol s <> symbolToRemove) (portfolioStocks st) in
  {| mySymbols := updatedList; stockQuantities := stockQuantities st;
     portfolioStocks := updated; inputSymbol := inputSymbol st;
     errorMsg := errorMsg st; portfolioLoading := portfolioLoading st;
     storage := set_data (set_symbols (storage st) updatedList) updated |}.

Definition handleQuantityChange (sym : string) (qty : num) (st : AppState)
  : AppState :=
  let updated := <[sym := qty]> (stockQuantities st) in
  {| mySymbols := mySymbols st; stockQuantities := updated;
     portfolioStocks := portfolioStocks st; inputSymbol := inputSymbol st;
     errorMsg := errorMsg st; portfolioLoading := portfolioLoading st;
     storage := set_quantities (storage st) updated |}.

Definition msg_analysis_failed : string :=
  "分析失敗。請確認您的 API 金鑰是否正確。".

(** [handleAnalyzePortfolio], from the click to the [finally] block, given
    how the request completes. *)
Definition handleAnalyzePortfolio (c : Completion) (st : AppState) : AppState :=
  match mySymbols st with
  | [] => st
  | _ =>
      match analyzePortfolio (mySymbols st) c with
      | Some data =>
          {| mySymbols := mySymbols st; stockQuantities := stockQuantities st;
             portfolioStocks := data; inputSymbol := inputSymbol st;
             errorMsg := None; portfolioLoading := false;
             storage := set_data (storage st) data |}
      | None =>
          {| mySymbols := mySymbols st; stockQuantities := stockQuantities st;
             portfolioStocks := portfolioStocks st;
             inputSymbol := inputSymbol st;
             errorMsg := Some msg_analysis_failed; portfolioLoading := false;
             storage := storage st |}
      end
  end.

(** [hasPendingSymbols] *)
Definition hasPendingSymbols (st : AppState) : bool :=
  match mySymbols st with
  | [] => false
  | _ =>
      match portfolioStocks st with
      | [] => true
      | _ =>
          let analyzedSymbols := symbol <$> portfolioStocks st in
          existsb (fun s => bool_decide (s ∉ analyzedSymbols)) (mySymbols st)
      end
  end.

(** The symbols that make [hasPendingSymbols] true: those of the watch-list
    with no entry in the analysis collection. *)
Definition pendingSymbols (st : AppState) : list string :=
  filter (fun s => s ∉ (symbol <$> portfolioStocks st)) (mySymbols st).

End App.

(* ===================================================================== *)
(** * Reference definitions *)
(* ===================================================================== *)

Module Reference.

(** Annual compounding as the design describes it: the value grows by the
    factor [1 + rate/100] once per whole year. *)
Definition compound_annually (principal rate : num) (years : nat) : num :=
  Nat.iter years (fun v => (v * (one + rate / of_Z 100))%js) principal.

(** An ordinary annuity: at each month end the balance earns the monthly
    rate and one contribution is added. *)
Definition annuity_balance (contribution rate : Qc) (months : nat) : Qc :=
  Nat.iter months (fun b => (b * (1 + rate) + contribution)%Qc) 0%Qc.

(** A comma or any white space. *)
Definition is_comma_or_whitespace (c : ascii) : bool :=
  (c =? ",")%char || JsString.is_whitespace c.

(** The tokens of a text for a class of separator characters: the maximal
    runs of characters that are not separators. *)
Fixpoint fields (sep : ascii -> bool) (s : string) : list string :=
  match s with
  | EmptyString => []
  | String c s' =>
      if sep c then fields sep s'
      else
        match s' with
        | EmptyString => [String c EmptyString]
        | String c' _ =>
            if sep c' then String c EmptyString :: fields sep s'
            else
              match fields sep s' with
              | t :: ts => String c t :: ts
              | [] => [String c EmptyString]
              end
        end
  end.

(** The fixed correction table of [addSymbols]. *)
Definition correct_symbol (s : string) : string :=
  if decide (s = "304") then "3042" else s.

(** [addSymbols] in the words of the design, for a class of separators:
    split, trim and upper-case, correct, drop the empty tokens and those
    already in the watch-list; what is left is appended in input order. *)
Definition addSymbols (sep : ascii -> bool) (watchlist : list string)
    (rawInput : string) : list string :=
  let normalized :=
    (fun t => correct_symbol (JsString.toUpperCase (JsString.trim t)))
      <$> fields sep rawInput in
  filter (fun s => s ∉ watchlist) (filter (fun s => s <> "") normalized).

(** The watch-list as loaded, an unreadable one falling back to empty. *)
Definition loaded_watchlist (ls : App.LocalStorage) : list string :=
  match App.finance_portfolio_symbols ls with
  | Json l => l
  | _ => []
  end.

(** The recovery rule read as covering every empty loaded watch-list. *)
Definition recovers_whenever_empty (ls : App.LocalStorage) : Prop :=
  loaded_watchlist ls = [] ->
  App.init_stockQuantities ls <> ∅ ->
  let st := App.initialState ls in
  list_to_set (App.mySymbols st) = dom (App.stockQuantities st) /\
  App.finance_portfolio_symbols (App.storage st) = Json (App.mySymbols st).

(** A failed analysis request, a response that does not parse included. *)
Definition request_failed (c : GeminiService.Completion) : Prop :=
  c = GeminiService.Rejected \/
  c = GeminiService.Fulfilled (Some GeminiService.NotJson).

(** A failure shows an error and leaves the three collections alone. *)
Definition failure_leaves_state (c : GeminiService.Completion)
    (st : App.AppState) : Prop :=
  request_failed c ->
  let st' := App.handleAnalyzePortfolio c st in
  App.errorMsg st' <> None /\
  App.mySymbols st' = App.mySymbols st /\
  App.stockQuantities st' = App.stockQuantities st /\
  App.portfolioStocks st' = App.portfolioStocks st.


(** A negative quantity is refused: nothing changes, nothing is written. *)
Definition negative_quantity_rejected (sym : string) (qty : Qc)
    (st : App.AppState) : Prop :=
  (qty < 0)%Qc -> App.handleQuantityChange sym (Fin qty) st = st.

End Reference.

(* ===================================================================== *)
(** * Sample data *)
(* ===================================================================== *)

Module Sample.

Import RetirementCalc.

(** The default plan after the user types [0] into the expected-return
    input. *)
Definition zero_rate_plan : RetirementPlan :=
  set_field defaultPlan (In_expectedAnnualReturn zero).

(** The default plan with the retirement age set to the current age. *)
Definition retired_plan : RetirementPlan :=
  set_field defaultPlan (In_retirementAge 30).

(** The default plan one year before retirement. *)
Definition one_year_plan : RetirementPlan :=
  set_field defaultPlan (In_currentAge 64).

(** The default plan with an insurance that completes in 2100. *)
Definition late_insurance_plan : RetirementPlan :=
  set_field defaultPlan (In_insuranceYearDone 2100).



Definition TAB : ascii := ascii_of_N 9.

(** Two codes separated by a tab. *)
Definition tabbed : string := "2330" +:+ String TAB "2317".

Definition tsmc : StockAnalysis :=
  {| symbol := "2330"; name := "TSMC"; marketCap := "";
     high52Week := of_Z 700; low52Week := of_Z 500; currentPrice := of_Z 600;
     suggestBuyPrice := of_Z 550; suggestSellPrice := of_Z 680;
     recommendation := HOLD; analysis := ""; projectedAnnualYield := "";
     exampleScenario := "" |}.

Definition one_holding : gmap string num := {[ "2330" := of_Z 100 ]}.

(** Quantities are stored, the watch-list key is missing. *)
Definition lost_watchlist : App.LocalStorage :=
  App.mkLocalStorage Absent (Json one_holding) Absent.

(** Quantities are stored, the watch-list text does not parse. *)
Definition corrupt_watchlist : App.LocalStorage :=
  App.mkLocalStorage Unparseable (Json one_holding) Absent.

(** One symbol, analysed and held. *)
Definition analysed : App.AppState :=
  {| App.mySymbols := ["2330"]; App.stockQuantities := one_holding;
     App.portfolioStocks := [tsmc]; App.inputSymbol := "";
     App.errorMsg := None; App.portfolioLoading := false;
     App.storage := App.mkLocalStorage (Json ["2330"]) (Json one_holding)
                      (Json [tsmc]) |}.

(** An empty application with [input] typed into the symbol box. *)
Definition typing (input : string) : App.AppState :=
  {| App.mySymbols := []; App.stockQuantities := ∅;
     App.portfolioStocks := []; App.inputSymbol := input;
     App.errorMsg := None; App.portfolioLoading := false;
     App.storage := App.mkLocalStorage Absent Absent Absent |}.

End Sample.

(* ===================================================================== *)
(** * More of the numbers and strings *)
(* ===================================================================== *)

Module JsMath.

(** [Math.min(a, b)]: NaN when either argument is. *)
Definition Math_min (a b : num) : num :=
  match a, b with
  | NaN, _ | _, NaN => NaN
  | _, _ => if leb a b then a else b
  end.

(** [Math.round(a)]: the nearest integer, halves going up. *)
Definition Math_round (a : num) : num :=
  match a with
  | Fin q => Fin (Qc_of_Z (Qfloor (q + Q2Qc (1 # 2))%Qc))
  | _ => a
  end.

End JsMath.

Module JsText.

Definition lower_char (c : ascii) : ascii :=
  let n := N_of_ascii c in
  if ((65 <=? n) && (n <=? 90))%N then ascii_of_N (n + 32) else c.

(** [s.toLowerCase()] *)
Fixpoint toLowerCase (s : string) : string :=
  match s with
  | EmptyString => EmptyString
  | String c s' => String (lower_char c) (toLowerCase s')
  end.

(** [s.includes(search)]: [search] occurs somewhere in [s]. *)
Fixpoint includes (s search : string) : bool :=
  String.prefix search s ||
  match s with
  | EmptyString => false
  | String _ s' => includes s' search
  end.

(** A lower-case ASCII letter. *)
Definition is_lower (c : ascii) : bool :=
  let n := N_of_ascii c in ((97 <=? n) && (n <=? 122))%N.

End JsText.

(* ===================================================================== *)
(** * RetirementCalc: the pie chart *)
(* ===================================================================== *)

Module RetirementChart.

Import RetirementCalc JsMath.

Section Chart.

Variable currentYear : Z.

(** [insuranceFinalValue] *)
Definition insuranceFinalValue (plan : RetirementPlan) : num :=
  Math_round
    (insurancePrincipal plan *
     Math_pow (one + insuranceRate plan / of_Z 100)
       (insuranceCompoundingYears currentYear plan))%js.

(** The expression the chart repeats for the grown lump sum. *)
Definition chart_lump (plan : RetirementPlan) : num :=
  (currentSavings plan *
   Math_pow (one + expectedAnnualReturn plan / of_Z 100 / of_Z 12)
     ((retirementAge plan - currentAge plan) * 12))%js.

(** The contributions still to be paid in. *)
Definition chart_principal (plan : RetirementPlan) : num :=
  (monthlySavings plan * of_Z 12 *
   of_Z (retirementAge plan - currentAge plan))%js.

(** [chartData]: the [value] of each slice, in order; empty while there is
    no result. *)
Definition chartData (plan : RetirementPlan) (result : option RetirementResult)
  : list num :=
  match result with
  | None => []
  | Some r =>
      [ Math_round (chart_lump plan);
        insuranceFinalValue plan;
        chart_principal plan;
        Math_round (totalAccumulated r - chart_lump plan
                    - insuranceFinalValue plan - chart_principal plan)%js ]
  end.

End Chart.

(** The stored plan is the plan of the state whenever the persist effect
    has run for the current plan object. *)
Definition persisted (f : Fiber) : Prop :=
  match persist_dep f with
  | None => True
  | Some k =>
      (k <= plan_id f)%nat /\
      (k = plan_id f -> saved_plan f = Json (stringify_plan (plan f)))
  end.

(** A number that [JSON.stringify] writes as it is and [||] keeps. *)
Definition kept (a : num) : Prop := exists q, a = Fin q /\ q <> 0%Qc.

(** Every field is written as it is and read back as it is. *)
Definition survives_reload (p : RetirementPlan) : Prop :=
  currentAge p <> 0%Z /\ retirementAge p <> 0%Z /\
  kept (currentSavings p) /\ kept (monthlySavings p) /\
  kept (targetMonthlyPension p) /\ kept (expectedAnnualReturn p) /\
  kept (insurancePrincipal p) /\ kept (insuranceRate p) /\
  insuranceYearDone p <> 0%Z.

End RetirementChart.

(* ===================================================================== *)
(** * StockTable *)
(* ===================================================================== *)

Module StockTable.

Import JsText.

(** The values of the filter [select]: ['ALL'] or one recommendation. *)
Inductive FilterType : Type :=
| ALL
| Only (r : Recommendation).

(** The callback of [stocks.filter] in [filteredStocks]. *)
Definition matches (searchTerm : string) (filterType : FilterType)
    (stock : StockAnalysis) : bool :=
  let searchLower := toLowerCase searchTerm in
  let matchesSearch :=
    includes (toLowerCase (symbol stock)) searchLower ||
    includes (toLowerCase (name stock)) searchLower in
  let matchesFilter :=
    match filterType with
    | ALL => true
    | Only r => bool_decide (recommendation stock = r)
    end in
  matchesSearch && matchesFilter.

Definition filteredStocks (stocks : list StockAnalysis) (searchTerm : string)
    (filterType : FilterType) : list StockAnalysis :=
  List.filter (matches searchTerm filterType) stocks.

(** [displayedTotal]: [0] when no [quantities] prop is given. *)
Definition displayedTotal (quantities : option (gmap string num))
    (filtered : list StockAnalysis) : num :=
  match quantities with
  | None => zero
  | Some q =>
      fold_left
        (fun sum stock =>
           let qty := or_default (q !! symbol stock) zero in
           (sum + currentPrice stock * qty)%js)
        filtered zero
  end.

(** [toggleExpand] on the [expandedId] state. *)
Definition toggleExpand (sym : string) (expandedId : option string)
  : option string :=
  if decide (expandedId = Some sym) then None else Some sym.

Definition buyList (stocks : list StockAnalysis) : list StockAnalysis :=
  List.filter (fun s => bool_decide (recommendation s = BUY)) stocks.

Definition sellList (stocks : list StockAnalysis) : list StockAnalysis :=
  List.filter (fun s => bool_decide (recommendation s = SELL)) stocks.

End StockTable.

(* ===================================================================== *)
(** * AnalysisChart *)
(* ===================================================================== *)

Module AnalysisChart.

Import JsMath.

Section Schematic.

(** [Math.PI] and [Math.sin] are left open: nothing below depends on their
    values. *)
Variable Math_PI : num.
Variable Math_sin : num -> num.

Definition points : Z := 20.

(** The callback of [Array.from]: the point of index [i]. *)
Definition chart_point (data : StockAnalysis) (i : Z) : string * num :=
  let range := (high52Week data - low52Week data)%js in
  let progress := (of_Z i / of_Z (points - 1))%js in
  let wave :=
    (Math_sin (progress * Math_PI * of_Z 2) * (range * of_frac 2 10))%js in
  let estimatedValue :=
    (low52Week data + (currentPrice data - low52Week data) * progress
     + wave)%js in
  ("T-" +:+ pretty (points - i)%Z,
   Math_max (low52Week data) (Math_min (high52Week data) estimatedValue)).

(** [chartData], the last price overwritten with the current price. *)
Definition chartData (data : StockAnalysis) : list (string * num) :=
  let from :=
    (fun i => chart_point data (Z.of_nat i)) <$> seq 0 (Z.to_nat points) in
  alter (fun p => (p.1, currentPrice data)) (length from - 1) from.

End Schematic.

End AnalysisChart.

(* ===================================================================== *)
(** * geminiService: the credential and the price rule *)
(* ===================================================================== *)

Module Credential.

Import GeminiService.

(** The two environment variables the service looks at. *)
Record Env : Type := mkEnv {
  VITE_API_KEY : option string;
  API_KEY : option string
}.

(** A string that is present and not empty. *)
Definition truthy_string (s : option string) : option string :=
  match s with
  | Some (String c s') => Some (String c s')
  | _ => None
  end.

(** [getApiKey]: local storage first, then the two variables. *)
Definition getApiKey (stored : option string) (env : Env) : option string :=
  match truthy_string stored with
  | Some k => Some k
  | None =>
      match truthy_string (VITE_API_KEY env) with
      | Some k => Some k
      | None => truthy_string (API_KEY env)
      end
  end.

(** How a request ends given what the network would answer: [getAIClient]
    throws before anything is sent when there is no key. *)
Definition request (stored : option string) (env : Env) (answer : Completion)
  : Completion :=
  match getApiKey stored env with
  | None => Rejected
  | Some _ => answer
  end.

(** [analyzeMarketTrends]: [None] when the returned promise rejects. *)
Definition analyzeMarketTrends (c : Completion) : option (list StockAnalysis) :=
  match c with
  | Rejected => None
  | Fulfilled text => Some (extractJson (default (JsonArray []) text))
  end.

(** The three branches of [priceRule] in [getTaipeiTimeInstruction]. *)
Inductive PriceRule : Type :=
| ClosingPrice
| PreviousClose
| RealTimePrice.

Definition priceRule (hour minute : Z) : PriceRule :=
  let timeVal := (hour * 100 + minute)%Z in
  if (timeVal >=? 1330)%Z then ClosingPrice
  else if (timeVal <? 900)%Z then PreviousClose
  else RealTimePrice.

End Credential.

(* ===================================================================== *)
(** * App: the key dialog, the trends and sequences of actions *)
(* ===================================================================== *)

Module Shell.

Import JsString GeminiService App Credential.

(** The rest of the state of [App], around the collections. *)
Record ShellState : Type := mkShell {
  app : AppState;
  trendStocks : list StockAnalysis;
  trendLoading : bool;
  showApiKeyModal : bool;
  apiKeyInput : string;
  gemini_api_key : option string
}.

Definition msg_trends_failed : string :=
  "無法取得市場資訊。請確認您的 API 金鑰是否正確，或稍後再試。".

Definition set_errorMsg (e : option string) (st : AppState) : AppState :=
  {| mySymbols := mySymbols st; stockQuantities := stockQuantities st;
     portfolioStocks := portfolioStocks st; inputSymbol := inputSymbol st;
     errorMsg := e; portfolioLoading := portfolioLoading st;
     storage := storage st |}.

(** [handleFetchTrends], from the call to the [finally] block. *)
Definition handleFetchTrends (env : Env) (answer : Completion) (sh : ShellState)
  : ShellState :=
  match analyzeMarketTrends (request (gemini_api_key sh) env answer) with
  | Some data =>
      {| app := set_errorMsg None (app sh); trendStocks := data;
         trendLoading := false; showApiKeyModal := showApiKeyModal sh;
         apiKeyInput := apiKeyInput sh; gemini_api_key := gemini_api_key sh |}
  | None =>
      {| app := set_errorMsg (Some msg_trends_failed) (app sh);
         trendStocks := trendStocks sh; trendLoading := false;
         showApiKeyModal := showApiKeyModal sh;
         apiKeyInput := apiKeyInput sh; gemini_api_key := gemini_api_key sh |}
  end.

(** The mount effect: open the dialog when no key is found, else fetch the
    trends. *)
Definition checkApiKey (env : Env) (answer : Completion) (sh : ShellState)
  : ShellState :=
  match truthy_string (gemini_api_key sh),
        truthy_string (API_KEY env), truthy_string (VITE_API_KEY env) with
  | None, None, None =>
      {| app := app sh; trendStocks := trendStocks sh;
         trendLoading := trendLoading sh; showApiKeyModal := true;
         apiKeyInput := apiKeyInput sh; gemini_api_key := gemini_api_key sh |}
  | _, _, _ => handleFetchTrends env answer sh
  end.


(** [handleAnalyzePortfolio] with the credential in storage. *)
Definition analyzeWithKey (env : Env) (answer : Completion) (sh : ShellState)
  : ShellState :=
  {| app := handleAnalyzePortfolio
              (request (gemini_api_key sh) env answer) (app sh);
     trendStocks := trendStocks sh; trendLoading := trendLoading sh;
     showApiKeyModal := showApiKeyModal sh; apiKeyInput := apiKeyInput sh;
     gemini_api_key := gemini_api_key sh |}.

(** [setInputSymbol(e.target.value)] *)
Definition setInputSymbol (value : string) (st : AppState) : AppState :=
  {| mySymbols := mySymbols st; stockQuantities := stockQuantities st;
     portfolioStocks := portfolioStocks st; inputSymbol := value;
     errorMsg := errorMsg st; portfolioLoading := portfolioLoading st;
     storage := storage st |}.

(** [handleManualSave]: the three writes. *)
Definition handleManualSave (st : AppState) : AppState := persist_effects st.

(** What the user can do to the collections. *)
Inductive Action : Type :=
| TypeSymbols (value : string)
| AddSymbol
| RemoveSymbol (sym : string)
| ChangeQuantity (sym : string) (qty : num)
| AnalyzePortfolio (c : Completion)
| ManualSave.

(** One action.  Each handler writes what it sets, so the backup effects
    that follow write the same values again. *)
Definition act (a : Action) (st : AppState) : AppState :=
  match a with
  | TypeSymbols value => setInputSymbol value st
  | AddSymbol => handleAddSymbol st
  | RemoveSymbol sym => handleRemoveSymbol sym st
  | ChangeQuantity sym qty => handleQuantityChange sym qty st
  | AnalyzePortfolio c => handleAnalyzePortfolio c st
  | ManualSave => handleManualSave st
  end.

Definition acts (l : list Action) (st : AppState) : AppState :=
  fold_left (fun st a => act a st) l st.

(** Storage holds exactly the three collections. *)
Definition mirrored (st : AppState) : Prop :=
  storage st =
  {| finance_portfolio_symbols := Json (mySymbols st);
     finance_stock_quantities := Json (stockQuantities st);
     finance_portfolio_data := Json (portfolioStocks st) |}.

Definition is_quantity_change (a : Action) : bool :=
  match a with
  | ChangeQuantity _ _ => true
  | _ => false
  end.

(** A symbol as the handler leaves it: not empty, no comma, no space, no
    lower-case letter, nothing to trim. *)
Definition normalized (s : string) : Prop :=
  s <> EmptyString /\
  Forall (fun c => is_separator c = false /\ JsText.is_lower c = false)
    (list_ascii_of_string s) /\
  trim s = s.

End Shell.

(* ===================================================================== *)
(** * Facts about numbers *)
(* ===================================================================== *)

Section NumFacts.

Lemma Qc_of_Z_0 : Qc_of_Z 0 = 0%Qc.
Proof. apply Qc_is_canon. reflexivity. Qed.

Lemma Qc_of_Z_1 : Qc_of_Z 1 = 1%Qc.
Proof. apply Qc_is_canon. reflexivity. Qed.

Lemma Qc_of_Z_ne0 (z : Z) : z <> 0%Z -> Qc_of_Z z <> 0%Qc.
Proof.
  intros Hz E. apply (f_equal this) in E. cbn in E.
  unfold inject_Z in E. injection E as E. contradiction.
Qed.

Lemma zero_Fin : zero = Fin 0%Qc.
Proof. unfold zero, of_Z. by rewrite Qc_of_Z_0. Qed.

Lemma one_Fin : one = Fin 1%Qc.
Proof. unfold one, of_Z. by rewrite Qc_of_Z_1. Qed.

Lemma qsign_0 : qsign 0%Qc = Eq.
Proof. reflexivity. Qed.

Lemma qsign_1 : qsign 1%Qc = Gt.
Proof. reflexivity. Qed.

Lemma mul_one_r (a : num) : (a * one)%js = a.
Proof.
  rewrite one_Fin. destruct a as [q| | |]; cbn; try done.
  by rewrite Qcmult_1_r.
Qed.

Lemma mul_one_l (a : num) : (one * a)%js = a.
Proof.
  rewrite one_Fin. destruct a as [q| | |]; cbn; try done.
  by rewrite Qcmult_1_l.
Qed.

Lemma mul_comm (a b : num) : (a * b)%js = (b * a)%js.
Proof.
  destruct a as [x| | |], b as [y| | |]; cbn; try done.
  by rewrite Qcmult_comm.
Qed.

Lemma div_Fin_of_Z (q : Qc) (z : Z) :
  z <> 0%Z -> (Fin q / of_Z z)%js = Fin (q / Qc_of_Z z)%Qc.
Proof.
  intros Hz. unfold of_Z. cbn.
  destruct (decide (Qc_of_Z z = 0%Qc)) as [E|_]; [|done].
  by apply Qc_of_Z_ne0 in E.
Qed.

Lemma pow_nat_one (n : nat) : pow_nat one n = one.
Proof.
  induction n as [|n IH]; [done|]. cbn [pow_nat]. rewrite IH.
  apply mul_one_l.
Qed.

Lemma Math_pow_nonneg (x : num) (n : Z) :
  (0 <= n)%Z -> Math_pow x n = pow_nat x (Z.to_nat n).
Proof.
  intros Hn. unfold Math_pow.
  destruct (n <? 0)%Z eqn:E; [lia | done].
Qed.

Lemma Math_pow_0 (x : num) : Math_pow x 0 = one.
Proof. reflexivity. Qed.

Lemma pow_nat_Fin (q : Qc) (n : nat) : pow_nat (Fin q) n = Fin (q ^ n)%Qc.
Proof.
  induction n as [|n IH]; cbn [pow_nat Qcpower].
  - apply one_Fin.
  - by rewrite IH.
Qed.

Lemma qsign_cases (q : Qc) :
  (qsign q = Eq /\ q = 0%Qc) \/ (qsign q = Gt /\ (0 < q)%Qc) \/
  (qsign q = Lt /\ (q < 0)%Qc).
Proof.
  unfold qsign. destruct (q ?= 0)%Qc eqn:E.
  - left. split; [done|]. by apply Qceq_alt.
  - right; right. split; [done|]. by apply Qclt_alt.
  - right; left. split; [done|]. by apply Qcgt_alt.
Qed.

Lemma qsign_pos (q : Qc) : (0 < q)%Qc -> qsign q = Gt.
Proof. intros H. by apply Qcgt_alt. Qed.

Lemma qsign_neg (q : Qc) : (q < 0)%Qc -> qsign q = Lt.
Proof. intros H. by apply Qclt_alt. Qed.

Lemma Qc_neg_pos (q : Qc) : (q < 0)%Qc -> (0 < - q)%Qc.
Proof.
  intros H. apply Qclt_minus_iff in H. by rewrite Qcplus_0_l in H.
Qed.

Lemma Qc_pos_neg (q : Qc) : (0 < - q)%Qc -> (q < 0)%Qc.
Proof.
  intros H. apply Qclt_minus_iff. by rewrite Qcplus_0_l.
Qed.

Lemma qsign_mul (x y : Qc) : qsign (x * y)%Qc = sign_mul (qsign x) (qsign y).
Proof.
  destruct (qsign_cases x) as [[-> ->]|[[-> Hx]|[-> Hx]]];
    destruct (qsign_cases y) as [[-> ->]|[[-> Hy]|[-> Hy]]]; cbn [sign_mul];
    rewrite ?Qcmult_0_l, ?Qcmult_0_r; try done.
  - apply qsign_pos. by apply Qcmult_pos_pos.
  - apply qsign_neg, Qc_pos_neg.
    replace (- (x * y))%Qc with (x * - y)%Qc by ring.
    apply Qcmult_pos_pos; [done|by apply Qc_neg_pos].
  - apply qsign_neg, Qc_pos_neg.
    replace (- (x * y))%Qc with (- x * y)%Qc by ring.
    apply Qcmult_pos_pos; [by apply Qc_neg_pos|done].
  - apply qsign_pos.
    replace (x * y)%Qc with (- x * - y)%Qc by ring.
    apply Qcmult_pos_pos; by apply Qc_neg_pos.
Qed.

Lemma mul_assoc (a b c : num) : (a * (b * c))%js = (a * b * c)%js.
Proof.
  destruct a as [x| | |], b as [y| | |], c as [z| | |];
    try destruct (qsign x) eqn:Hx; try destruct (qsign y) eqn:Hy;
    try destruct (qsign z) eqn:Hz;
    cbn; rewrite ?qsign_mul, ?Qcmult_assoc;
    repeat (first [rewrite Hx | rewrite Hy | rewrite Hz]; cbn);
    done.
Qed.

Lemma pow_nat_comm (x : num) (n : nat) :
  (pow_nat x n * x)%js = (x * pow_nat x n)%js.
Proof. apply mul_comm. Qed.

End NumFacts.

(* ===================================================================== *)
(** * The projection *)
(* ===================================================================== *)

Section ProjectionFacts.

Import RetirementCalc.

Local Open Scope Z_scope.

Variable currentYear : Z.

Lemma add_NaN_r (a : num) : (a + NaN)%js = NaN.
Proof. by destruct a. Qed.

Lemma mul_NaN_r (a : num) : (a * NaN)%js = NaN.
Proof. by destruct a. Qed.

Lemma monthlyRate_Fin (plan : RetirementPlan) (e : Qc) :
  expectedAnnualReturn plan = Fin e ->
  monthlyRate plan = Fin (e / Qc_of_Z 100 / Qc_of_Z 12)%Qc.
Proof.
  intros He. unfold monthlyRate. rewrite He.
  by rewrite !div_Fin_of_Z.
Qed.

Lemma monthlyRate_zero (plan : RetirementPlan) :
  expectedAnnualReturn plan = zero -> monthlyRate plan = Fin 0%Qc.
Proof.
  intros He. rewrite zero_Fin in He.
  rewrite (monthlyRate_Fin _ _ He). f_equal.
  unfold Qcdiv. by rewrite !Qcmult_0_l.
Qed.

Lemma rate_ne0 (e : Qc) :
  e <> 0%Qc -> (e / Qc_of_Z 100 / Qc_of_Z 12)%Qc <> 0%Qc.
Proof.
  intros He E.
  assert (H100 : Qc_of_Z 100 <> 0%Qc) by by apply Qc_of_Z_ne0.
  assert (H12 : Qc_of_Z 12 <> 0%Qc) by by apply Qc_of_Z_ne0.
  apply He.
  replace e with ((e / Qc_of_Z 100 / Qc_of_Z 12) * Qc_of_Z 12 * Qc_of_Z 100)%Qc
    by (field; done).
  rewrite E. ring.
Qed.

Lemma annuity_balance_closed (s r : Qc) (n : nat) :
  r <> 0%Qc ->
  Reference.annuity_balance s r n = (s * (((1 + r) ^ n - 1) / r))%Qc.
Proof.
  intros Hr. induction n as [|n IH].
  - cbn. field. done.
  - change (Reference.annuity_balance s r (S n))
      with (Reference.annuity_balance s r n * (1 + r) + s)%Qc.
    rewrite IH. cbn [Qcpower]. field. done.
Qed.

(** For a finite non-zero rate the annuity term of [calculate] is the
    closed form, and the closed form is the balance of a stream of
    month-end contributions. *)
Lemma fvMonthly_nonzero_rate (plan : RetirementPlan) (s e : Qc) :
  monthlySavings plan = Fin s ->
  expectedAnnualReturn plan = Fin e ->
  e <> 0%Qc ->
  retirementAge plan > currentAge plan ->
  let r := (e / Qc_of_Z 100 / Qc_of_Z 12)%Qc in
  let m := Z.to_nat ((retirementAge plan - currentAge plan) * 12) in
  fvMonthly plan = Fin (s * (((1 + r) ^ m - 1) / r))%Qc /\
  fvMonthly plan = Fin (Reference.annuity_balance s r m).
Proof.
  intros Hs He Hne Hage r m.
  assert (Hr : r <> 0%Qc) by by apply rate_ne0.
  assert (fvMonthly plan = Fin (s * (((1 + r) ^ m - 1) / r))%Qc) as ->.
  { unfold fvMonthly. rewrite Hs, (monthlyRate_Fin _ _ He).
    rewrite Math_pow_nonneg by (unfold months, plan_yearsToRetire; lia).
    rewrite one_Fin. cbn [add]. rewrite pow_nat_Fin. fold r.
    unfold months, plan_yearsToRetire. fold m. cbn.
    destruct (decide (r = 0%Qc)); [done|]. done. }
  split; [done|]. by rewrite annuity_balance_closed.
Qed.

(** C1 (the code at rate zero): for every plan with
    [retirementAge > currentAge] and [expectedAnnualReturn = 0], the annuity
    term computed by [calculate] is [0/0 = NaN], not
    [monthlySavings * months]; the NaN spreads to [totalAccumulated], and the
    goal is reported as not reachable. *)
Theorem annuity_term_zero_rate_is_NaN
    (plan : RetirementPlan) (prev : option RetirementResult) :
  retirementAge plan > currentAge plan ->
  expectedAnnualReturn plan = zero ->
  fvMonthly plan = NaN /\
  exists r, calculate currentYear plan prev = Some r /\
            totalAccumulated r = NaN /\
            monthlyPensionPossible r = NaN /\
            isGoalReachable r = false.
Proof.
  intros Hage He.
  assert (Hfv : fvMonthly plan = NaN).
  { unfold fvMonthly. rewrite (monthlyRate_zero _ He).
    rewrite Math_pow_nonneg by (unfold months, plan_yearsToRetire; lia).
    rewrite one_Fin. cbn [add]. rewrite Qcplus_0_r, <- one_Fin, pow_nat_one.
    rewrite one_Fin. cbn. apply mul_NaN_r. }
  split; [done|].
  unfold calculate.
  destruct (plan_yearsToRetire plan <=? 0) eqn:E;
    [unfold plan_yearsToRetire in E; lia|].
  eexists. split; [done|].
  unfold calcResult, calc_totalAccumulated. cbn.
  rewrite Hfv, add_NaN_r. cbn. unfold geb.
  by destruct (targetMonthlyPension plan).
Qed.

Lemma calculate_skips (plan : RetirementPlan) (prev : option RetirementResult) :
  retirementAge plan <= currentAge plan ->
  calculate currentYear plan prev = prev.
Proof.
  intros H. unfold calculate, plan_yearsToRetire.
  destruct (retirementAge plan - currentAge plan <=? 0) eqn:E; [done|lia].
Qed.

Lemma commit_ages (props : Props) (f : Fiber) :
  retirementAge (plan (commit currentYear props f)) = retirementAge (plan f) /\
  currentAge (plan (commit currentYear props f)) = currentAge (plan f).
Proof. unfold commit. cbn. by case_match. Qed.

Lemma commit_result_skips (props : Props) (f : Fiber) :
  retirementAge (plan f) <= currentAge (plan f) ->
  result (commit currentYear props f) = result f.
Proof.
  intros H. unfold commit. cbn. case_match; [|done].
  by apply calculate_skips.
Qed.

Lemma compound_annually_pow (principal rate : num) (n : nat) :
  Reference.compound_annually principal rate n =
  (principal * pow_nat (one + rate / of_Z 100) n)%js.
Proof.
  induction n as [|n IH].
  - cbn. by rewrite mul_one_r.
  - change (Reference.compound_annually principal rate (S n))
      with (Reference.compound_annually principal rate n *
            (one + rate / of_Z 100))%js.
    rewrite IH. cbn [pow_nat].
    by rewrite <- mul_assoc, pow_nat_comm.
Qed.

(** C9: the insurance term of [calculate] is
    [insurancePrincipal * (1 + insuranceRate/100)^years] with
    [years = max(0, retireYear - insuranceYearDone)] and
    [retireYear = currentYear + (retirementAge - currentAge)]; this is the
    principal grown once per year for [years] years; it is one of the three
    summands of [totalAccumulated]; and when [insuranceYearDone] lies after
    [retireYear] the exponent is 0 and the term is the principal itself. *)
Theorem insurance_term_annual_compounding (plan : RetirementPlan) :
  let retireYear' := currentYear + (retirementAge plan - currentAge plan) in
  let years := Z.max 0 (retireYear' - insuranceYearDone plan) in
  retireYear currentYear plan = retireYear' /\
  insuranceCompoundingYears currentYear plan = years /\
  fvInsurance currentYear plan =
    (insurancePrincipal plan *
     Math_pow (one + insuranceRate plan / of_Z 100) years)%js /\
  fvInsurance currentYear plan =
    Reference.compound_annually
      (insurancePrincipal plan) (insuranceRate plan) (Z.to_nat years) /\
  calc_totalAccumulated currentYear plan =
    (fvLumpSum plan + fvMonthly plan + fvInsurance currentYear plan)%js /\
  (insuranceYearDone plan > retireYear' ->
   years = 0 /\ fvInsurance currentYear plan = insurancePrincipal plan).
Proof.
  intros ry years.
  assert (Hpow : fvInsurance currentYear plan =
    (insurancePrincipal plan *
     pow_nat (one + insuranceRate plan / of_Z 100) (Z.to_nat years))%js).
  { unfold fvInsurance, insuranceCompoundingYears, retireYear,
      plan_yearsToRetire. fold ry. fold years.
    rewrite Math_pow_nonneg by (unfold years; lia). done. }
  repeat split; try done.
  - by rewrite compound_annually_pow.
  - unfold years. lia.
  - rewrite Hpow. replace years with 0 by (unfold years; lia).
    cbn. apply mul_one_r.
Qed.

(** C10: when [retirementAge <= currentAge], [calculate] returns without
    calling [setResult]: the stored result is what it was, both for the call
    itself and for the renders and effects that invoke it. *)
Theorem projection_not_computable
    (props : Props) (f : Fiber) (prev : option RetirementResult) :
  retirementAge (plan f) <= currentAge (plan f) ->
  calculate currentYear (plan f) prev = prev /\
  result (commit currentYear props f) = result f /\
  result (settle currentYear props f) = result f.
Proof.
  intros H. split; [by apply calculate_skips|].
  split; [by apply commit_result_skips|].
  change (settle currentYear props f) with
    (commit currentYear props
       (commit currentYear props (commit currentYear props f))).
  set (f1 := commit currentYear props f).
  set (f2 := commit currentYear props f1).
  destruct (commit_ages props f) as [Hr1 Hc1]. fold f1 in Hr1, Hc1.
  destruct (commit_ages props f1) as [Hr2 Hc2]. fold f2 in Hr2, Hc2.
  rewrite (commit_result_skips props f2) by lia.
  unfold f2. rewrite (commit_result_skips props f1) by lia.
  unfold f1. by apply commit_result_skips.
Qed.

End ProjectionFacts.

Lemma annuity_term_zero_rate_witness :
  RetirementCalc.fvMonthly Sample.zero_rate_plan = NaN.
Proof.
  refine (proj1 (annuity_term_zero_rate_is_NaN
                   2026 Sample.zero_rate_plan None _ _)).
  - cbn. lia.
  - reflexivity.
Defined.

Lemma insurance_term_witness :
  RetirementCalc.fvInsurance 2026 Sample.late_insurance_plan = of_Z 200000.
Proof.
  destruct (insurance_term_annual_compounding 2026 Sample.late_insurance_plan)
    as (_ & _ & _ & _ & _ & H).
  apply H. cbn. lia.
Defined.

Lemma projection_not_computable_witness :
  RetirementCalc.calculate 2026 Sample.retired_plan None = None.
Proof.
  refine (proj1 (projection_not_computable 2026
    (RetirementCalc.mkProps [] ∅)
    (RetirementCalc.mkFiber Sample.retired_plan 0 zero None None None Absent)
    None _)).
  cbn. lia.
Defined.

(* ===================================================================== *)
(** * Cash, portfolio value and the plan's savings *)
(* ===================================================================== *)

Section SavingsSync.

Import RetirementCalc.

Variable currentYear : Z.

Lemma strict_neq_false (a b : num) : strict_neq a b = false -> a = b.
Proof.
  destruct a, b; cbn; try done; intros H%bool_decide_eq_false; by apply dec_stable.
Qed.

Lemma commit_deps (props : Props) (f : Fiber) :
  sync_deps (commit currentYear props f) = Some (cashSavings f, portfolioTotalValue props) /\
  persist_dep (commit currentYear props f) = Some (plan_id f).
Proof. done. Qed.

Lemma commit_cash (props : Props) (f : Fiber) :
  sync_deps f <> None -> cashSavings (commit currentYear props f) = cashSavings f.
Proof.
  intros H. unfold commit. cbn.
  by rewrite bool_decide_eq_false_2.
Qed.

Lemma commit_plan_same (props : Props) (f : Fiber) :
  sync_deps f = Some (cashSavings f, portfolioTotalValue props) ->
  plan (commit currentYear props f) = plan f /\ plan_id (commit currentYear props f) = plan_id f.
Proof.
  intros H. unfold commit. cbn.
  rewrite (bool_decide_eq_false_2 (sync_deps f <> _)) by (intros E; by apply E).
  done.
Qed.

Lemma commit_quiescent (props : Props) (f : Fiber) :
  sync_deps f = Some (cashSavings f, portfolioTotalValue props) ->
  persist_dep f = Some (plan_id f) ->
  commit currentYear props f = f.
Proof.
  intros Hs Hp. unfold commit.
  rewrite (bool_decide_eq_false_2 (sync_deps f <> _)) by (intros E; by apply E).
  rewrite (bool_decide_eq_false_2 (persist_dep f <> _)) by (intros E; by apply E).
  rewrite (bool_decide_eq_false_2 (sync_deps f = None)) by by rewrite Hs.
  destruct f; cbn in *. by rewrite Hs, Hp.
Qed.

(** Three commits reach a state that a further commit leaves as it is. *)
Lemma settle_stable (props : Props) (f : Fiber) :
  commit currentYear props (settle currentYear props f) = settle currentYear props f.
Proof.
  change (settle currentYear props f) with (commit currentYear props (commit currentYear props (commit currentYear props f))).
  set (f1 := commit currentYear props f). set (f2 := commit currentYear props f1).
  set (f3 := commit currentYear props f2).
  assert (H1 : sync_deps f1 <> None) by done.
  assert (C2 : cashSavings f2 = cashSavings f1) by by apply commit_cash.
  assert (S2 : sync_deps f2 = Some (cashSavings f2, portfolioTotalValue props)).
  { rewrite C2. apply commit_deps. }
  destruct (commit_plan_same props f2 S2) as [_ I3]. fold f3 in I3.
  assert (C3 : cashSavings f3 = cashSavings f2).
  { apply commit_cash. by rewrite S2. }
  apply commit_quiescent.
  - rewrite C3. apply commit_deps.
  - rewrite I3. apply commit_deps.
Qed.

Lemma commit_synced (props : Props) (f : Fiber) :
  synced f -> synced (commit currentYear props f).
Proof.
  unfold synced at 2.
  destruct (sync_deps (commit currentYear props f)) as [[c' p']|] eqn:E';
    [|done].
  rewrite (proj1 (commit_deps props f)) in E'. simplify_eq.
  unfold synced, commit. cbn.
  destruct (sync_deps f) as [[c p]|] eqn:E.
  - intros H. case_bool_decide as Hd; cbn.
    + destruct (strict_neq _ _) eqn:N; [done|]. by apply strict_neq_false.
    + by simplify_eq.
  - intros _. cbn.
    destruct (strict_neq _ _) eqn:N; [done|]. by apply strict_neq_false.
Qed.

Lemma settle_synced (props : Props) (f : Fiber) :
  synced f -> synced (settle currentYear props f).
Proof. intros H. unfold settle; cbn [Nat.iter]; by do 3 apply commit_synced. Qed.

Lemma dispatch_synced (e : Event) (f : Fiber) :
  synced f -> synced (dispatch e f).
Proof. by destruct e. Qed.


Lemma mount_settled (saved : Stored PlanJson) (props : Props) :
  settled currentYear (mount currentYear saved props).
Proof.
  unfold settled, mount. cbn [fst snd]. split.
  - apply settle_stable.
  - by apply settle_synced.
Qed.

Lemma step_settled (e : Event) (c : Fiber * Props) :
  settled currentYear c -> settled currentYear (step currentYear e c).
Proof.
  intros [_ Hs]. unfold settled, step. cbn [fst snd]. split.
  - apply settle_stable.
  - by apply settle_synced, dispatch_synced.
Qed.

Lemma run_settled (es : list Event) (c : Fiber * Props) :
  settled currentYear c -> settled currentYear (run currentYear es c).
Proof.
  revert c. induction es as [|e es IH]; intros c Hc; [done|].
  cbn. by apply IH, step_settled.
Qed.






End SavingsSync.

Section PersistedZero.
Import RetirementCalc.


End PersistedZero.


(* ===================================================================== *)
(** * Splitting and normalising the symbol input *)
(* ===================================================================== *)

Section Tokens.

Import JsString.

Example split_leading_and_trailing :
  split ", a,,b ," = [""; "a"; "b"; ""].
Proof. reflexivity. Qed.

Example split_only_separator : split "," = [""; ""].
Proof. reflexivity. Qed.

Example trim_keeps_inner_space : trim "  a b  " = "a b".
Proof. reflexivity. Qed.

Example add_mixed_input :
  App.mySymbols (App.handleAddSymbol (Sample.typing " aapl ,304,, msft")) =
  ["AAPL"; "3042"; "MSFT"].
Proof. reflexivity. Qed.

Lemma split_from_head (c : ascii) (s : string) :
  is_separator c = false ->
  exists t ts, split_from false (String c s) = String c t :: ts.
Proof.
  intros Hc. cbn [split_from]. rewrite Hc.
  destruct (split_from false s) as [|t ts]; eauto.
Qed.

(** The non-empty pieces of [split] are the maximal runs of characters
    other than comma and space. *)
Lemma split_from_fields (s : string) (in_sep : bool) :
  filter (fun t => t <> EmptyString) (split_from in_sep s) =
  Reference.fields is_separator s.
Proof.
  revert in_sep. induction s as [|c s IH]; intros in_sep; [done|].
  cbn [split_from Reference.fields].
  destruct (is_separator c) eqn:Hc.
  - destruct in_sep; [apply IH|].
    rewrite filter_cons_False by (intros H; by apply H). apply IH.
  - specialize (IH false). destruct s as [|c' s'].
    + reflexivity.
    + destruct (is_separator c') eqn:Hc'.
      * cbn [split_from] in *. rewrite Hc' in *. lazy beta iota.
        rewrite filter_cons_True by done.
        rewrite filter_cons_False in IH by (intros H; by apply H).
        by rewrite IH.
      * destruct (split_from_head c' s' Hc') as (t & ts & Ht).
        rewrite Ht in *. rewrite filter_cons_True in IH by done.
        rewrite filter_cons_True by done. by rewrite <- IH.
Qed.

Lemma clean_symbol_correct (t : string) :
  App.clean_symbol t = Reference.correct_symbol (toUpperCase (trim t)).
Proof.
  unfold App.clean_symbol, Reference.correct_symbol.
  destruct (String.eqb_spec (toUpperCase (trim t)) "304");
    by case_decide.
Qed.

Lemma clean_symbol_empty : App.clean_symbol EmptyString = EmptyString.
Proof. reflexivity. Qed.

Lemma length_pos_nonempty (s : string) : 0 < String.length s <-> s <> EmptyString.
Proof. destruct s; cbn; [split; [lia|done] | split; [done|lia]]. Qed.

Lemma filter_fmap_nonempty (l : list string) :
  filter (fun s => s <> EmptyString) (App.clean_symbol <$> l) =
  filter (fun s => s <> EmptyString)
    (App.clean_symbol <$> filter (fun t => t <> EmptyString) l).
Proof.
  induction l as [|t l IH]; [done|].
  destruct (decide (t = EmptyString)) as [->|Hne].
  - rewrite (filter_cons_False _ EmptyString l) by (intros H; by apply H).
    cbn [fmap list_fmap]. rewrite clean_symbol_empty.
    rewrite filter_cons_False by (intros H; by apply H). apply IH.
  - rewrite (filter_cons_True _ t l) by done. cbn [fmap list_fmap].
    rewrite !filter_cons. rewrite IH. done.
Qed.

(** The appended symbols, computed as the handler does, are those of the
    design with comma and space as the separators. *)
Lemma uniqueNewSymbols_addSymbols (watchlist : list string) (input : string) :
  App.uniqueNewSymbols watchlist input =
  Reference.addSymbols is_separator watchlist input.
Proof.
  unfold App.uniqueNewSymbols, App.newSymbols, Reference.addSymbols. f_equal.
  rewrite (list_filter_iff (fun s => 0 < String.length s)
             (fun s => s <> EmptyString)) by apply length_pos_nonempty.
  rewrite filter_fmap_nonempty. unfold split. rewrite split_from_fields.
  f_equal. apply list_fmap_ext. intros _ t _. apply clean_symbol_correct.
Qed.

Lemma fields_cons (sep : ascii -> bool) (c : ascii) (s : string) :
  Reference.fields sep (String c s) =
  if sep c then Reference.fields sep s
  else match s with
       | EmptyString => [String c EmptyString]
       | String c' _ =>
           if sep c' then String c EmptyString :: Reference.fields sep s
           else match Reference.fields sep s with
                | t :: ts => String c t :: ts
                | [] => [String c EmptyString]
                end
       end.
Proof. reflexivity. Qed.

(** A token is not empty and holds no separator. *)
Lemma fields_token (sep : ascii -> bool) (s t : string) :
  t ∈ Reference.fields sep s ->
  t <> EmptyString /\
  Forall (fun c => sep c = false) (list_ascii_of_string t).
Proof.
  revert t. induction s as [|c s IH]; intros t; [by intros ?%elem_of_nil|].
  rewrite fields_cons. destruct (sep c) eqn:Hc; [apply IH|].
  assert (Hone : String c EmptyString <> EmptyString /\
                 Forall (fun c => sep c = false)
                   (list_ascii_of_string (String c EmptyString))).
  { split; [done|]. cbn. by repeat constructor. }
  destruct s as [|c' s'].
  - by intros ->%list_elem_of_singleton.
  - destruct (sep c') eqn:Hc'.
    + intros [->|H]%elem_of_cons; [done|by apply IH].
    + destruct (Reference.fields sep (String c' s')) as [|t0 ts].
      * by intros ->%list_elem_of_singleton.
      * intros [->|H]%elem_of_cons.
        -- destruct (IH t0) as [_ H0]; [by left|].
           split; [done|]. cbn. by constructor.
        -- apply IH. by right.
Qed.

Lemma clean_symbol_not_304 (t : string) :
  App.clean_symbol t <> "304".
Proof.
  unfold App.clean_symbol.
  destruct (String.eqb_spec (toUpperCase (trim t)) "304"); done.
Qed.

End Tokens.

(* ===================================================================== *)
(** * The watch-list handlers *)
(* ===================================================================== *)

Section WatchList.

Import JsString GeminiService App.

Lemma handleAddSymbol_symbols (st : AppState) :
  mySymbols (handleAddSymbol st) =
  mySymbols st ++ uniqueNewSymbols (mySymbols st) (inputSymbol st).
Proof.
  unfold handleAddSymbol. destruct (inputSymbol st) as [|c s] eqn:E.
  - by rewrite app_nil_r.
  - destruct (uniqueNewSymbols _ _); [by rewrite app_nil_r|done].
Qed.

Lemma handleAddSymbol_nothing_new (st : AppState) :
  uniqueNewSymbols (mySymbols st) (inputSymbol st) = [] ->
  handleAddSymbol st = st.
Proof.
  intros H. unfold handleAddSymbol. rewrite H. by destruct (inputSymbol st).
Qed.

Lemma handleAddSymbol_something_new (st : AppState) :
  uniqueNewSymbols (mySymbols st) (inputSymbol st) <> [] ->
  finance_portfolio_symbols (storage (handleAddSymbol st)) =
    Json (mySymbols (handleAddSymbol st)) /\
  inputSymbol (handleAddSymbol st) = EmptyString.
Proof.
  intros H. rewrite handleAddSymbol_symbols. unfold handleAddSymbol.
  destruct (inputSymbol st) as [|c s] eqn:E; [by destruct H|].
  by destruct (uniqueNewSymbols _ _).
Qed.

Lemma handleAddSymbol_frame (st : AppState) :
  stockQuantities (handleAddSymbol st) = stockQuantities st /\
  portfolioStocks (handleAddSymbol st) = portfolioStocks st /\
  finance_stock_quantities (storage (handleAddSymbol st)) =
    finance_stock_quantities (storage st) /\
  finance_portfolio_data (storage (handleAddSymbol st)) =
    finance_portfolio_data (storage st).
Proof.
  unfold handleAddSymbol. destruct (inputSymbol st); [done|].
  by destruct (uniqueNewSymbols _ _).
Qed.

(** C7 (as the handler does it): the input is split on runs of commas and
    spaces, each token is trimmed and upper-cased, ["304"] becomes ["3042"],
    empty tokens and tokens already in the watch-list are dropped, and the
    rest is appended in input order and written to storage; when nothing is
    left the state is unchanged. *)
Theorem addSymbols_comma_space (st : AppState) :
  let added :=
    Reference.addSymbols is_separator (mySymbols st) (inputSymbol st) in
  let st' := handleAddSymbol st in
  mySymbols st' = mySymbols st ++ added /\
  (added = [] -> st' = st) /\
  (added <> [] ->
   finance_portfolio_symbols (storage st') = Json (mySymbols st ++ added) /\
   inputSymbol st' = EmptyString) /\
  stockQuantities st' = stockQuantities st /\
  portfolioStocks st' = portfolioStocks st /\
  Forall (fun s => s <> EmptyString /\ (s ∉ mySymbols st) /\ s <> "304")
    added /\
  clean_symbol "304" = "3042".
Proof.
  intros added st'. subst added st'.
  rewrite <- uniqueNewSymbols_addSymbols.
  split; [apply handleAddSymbol_symbols|].
  split; [apply handleAddSymbol_nothing_new|].
  split.
  { intros H. destruct (handleAddSymbol_something_new st H) as [H1 H2].
    by rewrite H1, handleAddSymbol_symbols. }
  destruct (handleAddSymbol_frame st) as (Hq & Hp & _).
  repeat split; try done.
  apply Forall_forall. intros s Hs.
  unfold uniqueNewSymbols, newSymbols in Hs.
  apply list_elem_of_filter in Hs as [Hnot Hs].
  apply list_elem_of_filter in Hs as [Hlen Hs].
  apply list_elem_of_fmap in Hs as (t & -> & _).
  split; [by apply length_pos_nonempty|].
  split; [done|]. apply clean_symbol_not_304.
Qed.

(** C5 (the code on a repeated token): typing ["2330, 2330"] into an empty
    watch-list appends the symbol twice; the new tokens are only compared
    with the symbols already in the list. *)
Theorem addSymbols_repeated_token :
  let st := Sample.typing "2330, 2330" in
  NoDup (mySymbols st) /\
  mySymbols (handleAddSymbol st) = ["2330"; "2330"] /\
  ~ NoDup (mySymbols (handleAddSymbol st)).
Proof.
  cbn zeta. split; [constructor|]. split; [reflexivity|].
  intros H. change (mySymbols (handleAddSymbol (Sample.typing "2330, 2330")))
    with ["2330"; "2330"] in H.
  apply NoDup_cons in H as [H _]. apply H. by left.
Qed.

Lemma existsb_filter {A} (P : A -> Prop) `{!forall x, Decision (P x)}
    (l : list A) :
  existsb (fun x => bool_decide (P x)) l = true <-> filter P l <> [].
Proof.
  induction l as [|x l IH]; [done|]. cbn [existsb].
  rewrite filter_cons. case_bool_decide as Hx.
  - rewrite decide_True by done. done.
  - rewrite decide_False by done. by rewrite orb_false_l.
Qed.

(** [hasPendingSymbols] tells whether some watch-list symbol is pending. *)
Lemma hasPendingSymbols_pendingSymbols (st : AppState) :
  hasPendingSymbols st = true <-> pendingSymbols st <> [].
Proof.
  unfold hasPendingSymbols, pendingSymbols.
  destruct (mySymbols st) as [|s l] eqn:Es; [done|].
  destruct (portfolioStocks st) as [|a d] eqn:Ed.
  - cbn [fmap list_fmap]. rewrite filter_cons_True by apply not_elem_of_nil.
    done.
  - apply existsb_filter.
Qed.

(** C8: [handleRemoveSymbol s] takes [s] out of the watch-list and takes
    every analysis entry for [s] out of the analysis collection, writes both
    back, and leaves the quantities, the entry for [s] included, as they
    are; afterwards [s] is not a pending symbol.  The other symbols and
    their entries stay. *)
Theorem removeSymbol_keeps_quantity (s : string) (st : AppState) :
  let st' := handleRemoveSymbol s st in
  (s ∉ mySymbols st') /\
  (s ∉ symbol <$> portfolioStocks st') /\
  stockQuantities st' = stockQuantities st /\
  stockQuantities st' !! s = stockQuantities st !! s /\
  finance_stock_quantities (storage st') =
    finance_stock_quantities (storage st) /\
  (s ∉ pendingSymbols st') /\
  (forall t, t <> s -> (t ∈ mySymbols st' <-> t ∈ mySymbols st)) /\
  (forall a, symbol a <> s ->
             (a ∈ portfolioStocks st' <-> a ∈ portfolioStocks st)) /\
  finance_portfolio_symbols (storage st') = Json (mySymbols st') /\
  finance_portfolio_data (storage st') = Json (portfolioStocks st').
Proof.
  cbn zeta. unfold pendingSymbols. cbn.
  assert (Hs : s ∉ filter (fun t => t <> s) (mySymbols st)).
  { intros [H _]%list_elem_of_filter. by apply H. }
  repeat split; try done.
  - intros (a & Ha & [Hf _]%list_elem_of_filter)%list_elem_of_fmap.
    by apply Hf.
  - intros [_ Hf]%list_elem_of_filter. by apply Hs.
  - by intros [_ Hf]%list_elem_of_filter.
  - intros Hf. by apply list_elem_of_filter.
  - by intros [_ Hf]%list_elem_of_filter.
  - intros Hf. by apply list_elem_of_filter.
Qed.

End WatchList.

Section Counterexamples.

Import JsString GeminiService App.

(** C7, the claim as stated fails: a tab is white space but not a
    separator of [/[, ]+/], so ["2330<TAB>2317"] is added as one symbol
    where splitting on white space adds two. *)
Lemma addSymbols_tab_is_no_separator :
  let st := Sample.typing Sample.tabbed in
  mySymbols (handleAddSymbol st) = [Sample.tabbed] /\
  Reference.addSymbols Reference.is_comma_or_whitespace
    (mySymbols st) (inputSymbol st) = ["2330"; "2317"] /\
  mySymbols (handleAddSymbol st) <>
    mySymbols st ++
    Reference.addSymbols Reference.is_comma_or_whitespace
      (mySymbols st) (inputSymbol st).
Proof. cbn zeta. split; [reflexivity|]. split; [reflexivity|]. discriminate. Qed.

Lemma addSymbols_comma_space_witness :
  mySymbols (handleAddSymbol (Sample.typing "2330")) = ["2330"] /\
  handleAddSymbol Sample.analysed = Sample.analysed.
Proof.
  split.
  - exact (proj1 (addSymbols_comma_space (Sample.typing "2330"))).
  - apply (addSymbols_comma_space Sample.analysed). reflexivity.
Defined.

End Counterexamples.

(* ===================================================================== *)
(** * Quantities *)
(* ===================================================================== *)

Section Quantities.

Import App.

(** C4 (as the handler does it): [handleQuantityChange sym qty] stores
    [qty] for [sym] whatever its sign, leaves every other quantity, the
    watch-list and the analysis collection as they are, and writes the new
    mapping to storage; the handler has no failure outcome. *)
Theorem setQuantity_upserts_any_sign (sym : string) (qty : num) (st : AppState) :
  let st' := handleQuantityChange sym qty st in
  stockQuantities st' = <[sym := qty]> (stockQuantities st) /\
  stockQuantities st' !! sym = Some qty /\
  (forall t, t <> sym -> stockQuantities st' !! t = stockQuantities st !! t) /\
  finance_stock_quantities (storage st') = Json (stockQuantities st') /\
  mySymbols st' = mySymbols st /\
  portfolioStocks st' = portfolioStocks st /\
  finance_portfolio_symbols (storage st') =
    finance_portfolio_symbols (storage st) /\
  finance_portfolio_data (storage st') = finance_portfolio_data (storage st).
Proof.
  cbn. repeat split; try done.
  - apply lookup_insert_eq.
  - intros t Ht. by apply lookup_insert_ne.
Qed.

(** C4, the claim as stated fails: the quantity -5 is stored and written. *)
Lemma negative_quantity_is_stored :
  ~ Reference.negative_quantity_rejected "2330" (Qc_of_Z (-5)) Sample.analysed.
Proof.
  intros H. unfold Reference.negative_quantity_rejected in H.
  assert (Hneg : (Qc_of_Z (-5) < 0)%Qc) by reflexivity.
  apply H in Hneg.
  apply (f_equal (fun st => stockQuantities st !! "2330")) in Hneg.
  cbn in Hneg. rewrite lookup_insert_eq in Hneg.
  unfold Sample.one_holding in Hneg. rewrite lookup_singleton_eq in Hneg.
  discriminate.
Qed.

End Quantities.

(* ===================================================================== *)
(** * Initialisation *)
(* ===================================================================== *)

Section Initialisation.

Import App.

Lemma Object_keys_nonempty (m : gmap string num) :
  m <> ∅ -> Object_keys m <> [].
Proof.
  intros Hm E. apply Hm. unfold Object_keys in E.
  apply fmap_nil_inv in E. by apply map_to_list_empty_iff.
Qed.

Lemma Object_keys_dom (m : gmap string num) :
  list_to_set (Object_keys m) = dom m.
Proof. unfold Object_keys. symmetry. apply leibniz_equiv, dom_alt. Qed.

Lemma recover_symbols_keys (ls : LocalStorage) :
  init_stockQuantities ls <> ∅ ->
  recover_symbols ls =
    Some (Object_keys (init_stockQuantities ls),
          set_symbols ls (Object_keys (init_stockQuantities ls))).
Proof.
  unfold init_stockQuantities, recover_symbols.
  destruct (finance_stock_quantities ls) as [| |m]; try done.
  intros Hm. apply Object_keys_nonempty in Hm.
  by destruct (Object_keys m).
Qed.

(** The recovery on the two paths that reach it: when the stored
    watch-list is missing or is the empty list and the loaded quantities are
    not empty, the watch-list is the keys of the quantities, each once, and
    is written back at once; with quantities [{ "2330": q }] it is
    [["2330"]]. *)
Theorem watchlist_rebuilt_from_quantities (ls : LocalStorage) :
  finance_portfolio_symbols ls = Absent \/
  finance_portfolio_symbols ls = Json [] ->
  init_stockQuantities ls <> ∅ ->
  let st := initialState ls in
  stockQuantities st = init_stockQuantities ls /\
  mySymbols st = Object_keys (stockQuantities st) /\
  NoDup (mySymbols st) /\
  list_to_set (mySymbols st) = dom (stockQuantities st) /\
  finance_portfolio_symbols (storage st) = Json (mySymbols st) /\
  mySymbols (mountApp ls) = mySymbols st /\
  (forall q, init_stockQuantities ls = {[ "2330" := q ]} ->
             mySymbols st = ["2330"]).
Proof.
  intros Hsym Hqty st.
  assert (Hinit : init_mySymbols ls =
            (Object_keys (init_stockQuantities ls),
             set_symbols ls (Object_keys (init_stockQuantities ls)))).
  { unfold init_mySymbols.
    destruct Hsym as [-> | ->]; by rewrite recover_symbols_keys. }
  subst st. unfold mountApp, initialState. rewrite Hinit. cbn.
  repeat split; try done.
  - apply NoDup_fst_map_to_list.
  - apply Object_keys_dom.
  - intros q ->. unfold Object_keys. by rewrite map_to_list_singleton.
Qed.

Lemma watchlist_rebuilt_witness :
  mySymbols (initialState Sample.lost_watchlist) = ["2330"].
Proof.
  refine (proj2 (proj2 (proj2 (proj2 (proj2 (proj2
    (watchlist_rebuilt_from_quantities Sample.lost_watchlist _ _))))))
    (of_Z 100) _).
  - left. reflexivity.
  - apply map_non_empty_singleton.
  - reflexivity.
Defined.

Lemma unparseable_initialState (ls : LocalStorage) :
  finance_portfolio_symbols ls = Unparseable ->
  initialState ls =
    {| mySymbols := []; stockQuantities := init_stockQuantities ls;
       portfolioStocks := init_portfolioStocks ls; inputSymbol := "";
       errorMsg := None; portfolioLoading := false; storage := ls |}.
Proof. intros Hu. unfold initialState, init_mySymbols. by rewrite Hu. Qed.

(** C2 (where the code leaves the rule): with an empty loaded watch-list
    and loaded quantities that are not empty, the watch-list is rebuilt as
    the key set of the quantities and written back when the stored
    watch-list is missing or is the empty list; when it does not parse,
    [JSON.parse] throws before the recovery branch, the [catch] returns the
    empty list and storage is left as it was, so the watch-list is then
    not the key set of the quantities.  The rule holds of a storage
    exactly when its watch-list is not an unparseable one. *)
Theorem watchlist_recovery_skips_unparseable (ls : LocalStorage) :
  Reference.loaded_watchlist ls = [] ->
  init_stockQuantities ls <> ∅ ->
  let st := initialState ls in
  stockQuantities st = init_stockQuantities ls /\
  (finance_portfolio_symbols ls <> Unparseable ->
     mySymbols st = Object_keys (stockQuantities st) /\
     list_to_set (mySymbols st) = dom (stockQuantities st) /\
     finance_portfolio_symbols (storage st) = Json (mySymbols st)) /\
  (finance_portfolio_symbols ls = Unparseable ->
     mySymbols st = [] /\
     storage st = ls /\
     list_to_set (mySymbols st) <> dom (stockQuantities st)) /\
  (Reference.recovers_whenever_empty ls <->
   finance_portfolio_symbols ls <> Unparseable).
Proof.
  intros Hl Hq st.
  assert (Hok : finance_portfolio_symbols ls <> Unparseable ->
            stockQuantities st = init_stockQuantities ls /\
            mySymbols st = Object_keys (stockQuantities st) /\
            list_to_set (mySymbols st) = dom (stockQuantities st) /\
            finance_portfolio_symbols (storage st) = Json (mySymbols st)).
  { intros Hp.
    assert (Hsym : finance_portfolio_symbols ls = Absent \/
                   finance_portfolio_symbols ls = Json []).
    { unfold Reference.loaded_watchlist in Hl.
      destruct (finance_portfolio_symbols ls) as [| |l]; [by left|done|].
      right. by rewrite Hl. }
    by destruct (watchlist_rebuilt_from_quantities ls Hsym Hq)
      as (? & ? & _ & ? & ? & _). }
  assert (Hbad : finance_portfolio_symbols ls = Unparseable ->
            stockQuantities st = init_stockQuantities ls /\
            mySymbols st = [] /\ storage st = ls /\
            list_to_set (mySymbols st) <> dom (stockQuantities st)).
  { intros Hu. subst st. rewrite (unparseable_initialState ls Hu). cbn.
    split_and!; try done.
    intros E. apply Hq. apply dom_empty_iff_L. by rewrite <- E. }
  split.
  { destruct (decide (finance_portfolio_symbols ls = Unparseable)) as [Hu|Hp];
      [by destruct (Hbad Hu)|by destruct (Hok Hp)]. }
  split; [intros Hp; by destruct (Hok Hp) as (_ & ? & ? & ?)|].
  split; [intros Hu; by destruct (Hbad Hu) as (_ & ? & ? & ?)|].
  split.
  - intros Hr Hu. destruct (Hr Hl Hq) as [Hset _].
    by destruct (Hbad Hu) as (_ & _ & _ & Hne).
  - intros Hp _ _. by destruct (Hok Hp) as (_ & _ & ? & ?).
Qed.

Lemma watchlist_recovery_witness :
  mySymbols (initialState Sample.corrupt_watchlist) = [] /\
  storage (initialState Sample.corrupt_watchlist) = Sample.corrupt_watchlist /\
  ~ Reference.recovers_whenever_empty Sample.corrupt_watchlist.
Proof.
  destruct (watchlist_recovery_skips_unparseable Sample.corrupt_watchlist)
    as (_ & _ & Hbad & Hiff).
  - reflexivity.
  - apply map_non_empty_singleton.
  - destruct (Hbad eq_refl) as (H1 & H2 & _).
    split; [exact H1|]. split; [exact H2|].
    intros Hr. by apply (proj1 Hiff Hr).
Defined.

End Initialisation.

(* ===================================================================== *)
(** * The analysis request *)
(* ===================================================================== *)

Section Analysis.

Import GeminiService App.

Lemma handleAnalyzePortfolio_no_symbols (c : Completion) (st : AppState) :
  mySymbols st = [] -> handleAnalyzePortfolio c st = st.
Proof. intros H. unfold handleAnalyzePortfolio. by rewrite H. Qed.

(** C3 (as the handler does it): when the request rejects, the error
    message is set and the collections and storage are as before; when a
    response arrives, whatever [extractJson] returns replaces the analysis
    collection, in state and in storage, and no error is shown: for a text
    that does not parse that is the empty collection.  The watch-list and
    the quantities are never touched. *)
Theorem analysis_request_outcomes (c : Completion) (st : AppState) :
  mySymbols st <> [] ->
  let st' := handleAnalyzePortfolio c st in
  mySymbols st' = mySymbols st /\
  stockQuantities st' = stockQuantities st /\
  finance_portfolio_symbols (storage st') =
    finance_portfolio_symbols (storage st) /\
  finance_stock_quantities (storage st') =
    finance_stock_quantities (storage st) /\
  (c = Rejected ->
   errorMsg st' = Some msg_analysis_failed /\
   portfolioStocks st' = portfolioStocks st /\
   storage st' = storage st) /\
  (forall text, c = Fulfilled text ->
   errorMsg st' = None /\
   portfolioStocks st' = extractJson (default (JsonArray []) text) /\
   finance_portfolio_data (storage st') = Json (portfolioStocks st')) /\
  (c = Fulfilled (Some NotJson) ->
   errorMsg st' = None /\ portfolioStocks st' = []).
Proof.
  intros Hsym. cbn zeta. unfold handleAnalyzePortfolio, analyzePortfolio.
  destruct (mySymbols st) as [|s l] eqn:E; [done|].
  destruct c as [|text]; cbn; split_and!; try done;
    intros; by simplify_eq.
Qed.

Lemma analysis_request_witness :
  errorMsg (handleAnalyzePortfolio Rejected Sample.analysed) =
    Some msg_analysis_failed /\
  portfolioStocks (handleAnalyzePortfolio Rejected Sample.analysed) =
    [Sample.tsmc].
Proof.
  destruct (analysis_request_outcomes Rejected Sample.analysed)
    as (_ & _ & _ & _ & H & _).
  - discriminate.
  - destruct (H eq_refl) as (H1 & H2 & _). split; [exact H1|exact H2].
Defined.

(** C3, the claim as stated fails: a response that does not parse clears
    the stored analysis and shows no error. *)
Lemma unparseable_response_clears_analysis :
  ~ Reference.failure_leaves_state (Fulfilled (Some NotJson)) Sample.analysed.
Proof.
  intros H. destruct H as (Herr & _); [by right|]. by apply Herr.
Qed.

End Analysis.

Section Witnesses.

Import App.

Lemma setQuantity_witness :
  stockQuantities (handleQuantityChange "2330" (of_Z 7) Sample.analysed)
    !! "2317" = None.
Proof.
  destruct (setQuantity_upserts_any_sign "2330" (of_Z 7) Sample.analysed)
    as (_ & _ & H & _).
  rewrite H; [reflexivity | discriminate].
Defined.

Lemma removeSymbol_witness :
  "2317" ∈ mySymbols (handleRemoveSymbol "2330" (handleAddSymbol
                        (handleRemoveSymbol "2317" (Sample.typing "2317")))).
Proof.
  destruct (removeSymbol_keeps_quantity "2330"
              (handleAddSymbol
                 (handleRemoveSymbol "2317" (Sample.typing "2317"))))
    as (_ & _ & _ & _ & _ & _ & H & _).
  apply H; [discriminate|]. by left.
Defined.


End Witnesses.

(* ===================================================================== *)
(** * Storage and reloads *)
(* ===================================================================== *)

Section Reload.

Import JsString GeminiService App Shell.

Lemma mountApp_mirrored (ls : LocalStorage) : mirrored (mountApp ls).
Proof. reflexivity. Qed.

Lemma act_mirrored (a : Action) (st : AppState) :
  mirrored st -> mirrored (act a st).
Proof.
  unfold mirrored. intros H. destruct a as [v| |s|s q|c|]; cbn.
  - done.
  - unfold handleAddSymbol. destruct (inputSymbol st); [done|].
    destruct (uniqueNewSymbols _ _); [done|]. cbn. by rewrite H.
  - by rewrite H.
  - by rewrite H.
  - unfold handleAnalyzePortfolio.
    destruct (mySymbols st) eqn:E; [by rewrite E|].
    destruct (analyzePortfolio _ _); cbn; by rewrite H.
  - done.
Qed.

Lemma acts_mirrored (l : list Action) (st : AppState) :
  mirrored st -> mirrored (acts l st).
Proof.
  revert st. induction l as [|a l IH]; intros st H; [done|].
  cbn. by apply IH, act_mirrored.
Qed.

(** X1: After the first render and any sequence of actions, local storage holds
    exactly the watch-list, the quantities and the analysis collection of
    the state: nothing the user did is left unsaved. *)
Theorem storage_mirrors_state (ls : LocalStorage) (l : list Action) :
  let st := acts l (mountApp ls) in
  finance_portfolio_symbols (storage st) = Json (mySymbols st) /\
  finance_stock_quantities (storage st) = Json (stockQuantities st) /\
  finance_portfolio_data (storage st) = Json (portfolioStocks st) /\
  handleManualSave st = st.
Proof.
  cbn zeta. assert (H := acts_mirrored l _ (mountApp_mirrored ls)).
  unfold mirrored in H. rewrite H. cbn. split_and!; try done.
  unfold handleManualSave, persist_effects. rewrite <- H.
  by destruct (acts l (mountApp ls)).
Qed.

Lemma reload_symbols (st : AppState) :
  mirrored st ->
  mySymbols (mountApp (storage st)) =
  match mySymbols st with
  | [] => Object_keys (stockQuantities st)
  | l => l
  end.
Proof.
  unfold mirrored. intros ->. unfold mountApp, initialState, init_mySymbols.
  cbn. destruct (mySymbols st) as [|s l]; [|done].
  unfold recover_symbols. cbn.
  by destruct (Object_keys (stockQuantities st)).
Qed.

(** X2: Reloading the page gives back the watch-list of the state, in the same
    order, whenever it is not empty or no quantity is stored. *)
Theorem reload_keeps_watchlist (ls : LocalStorage) (l : list Action) :
  let st := acts l (mountApp ls) in
  mySymbols st <> [] \/ stockQuantities st = ∅ ->
  mySymbols (mountApp (storage st)) = mySymbols st.
Proof.
  cbn zeta. intros H.
  rewrite reload_symbols by apply acts_mirrored, mountApp_mirrored.
  destruct (mySymbols (acts l (mountApp ls))) as [|s k]; [|done].
  destruct H as [H| ->]; [done|].
  unfold Object_keys. by rewrite map_to_list_empty.
Qed.

(** X3: Removing the only symbol of the watch-list while it has a stored
    quantity does not survive a reload: the quantity stays, the watch-list
    is stored empty, and the next load rebuilds it from the quantity keys. *)
Theorem removed_last_symbol_returns (ls : LocalStorage) (l : list Action)
    (s : string) :
  let st := acts l (mountApp ls) in
  mySymbols st = [s] ->
  is_Some (stockQuantities st !! s) ->
  let st' := handleRemoveSymbol s st in
  mySymbols st' = [] /\
  mySymbols (mountApp (storage st')) = Object_keys (stockQuantities st) /\
  s ∈ mySymbols (mountApp (storage st')).
Proof.
  cbn zeta. intros Hs [q Hq].
  assert (Hm : mirrored (handleRemoveSymbol s (acts l (mountApp ls)))).
  { apply (act_mirrored (RemoveSymbol s)), acts_mirrored, mountApp_mirrored. }
  assert (He : mySymbols (handleRemoveSymbol s (acts l (mountApp ls))) = []).
  { cbn. rewrite Hs. rewrite filter_cons_False by (intros H; by apply H).
    done. }
  split; [done|]. rewrite (reload_symbols _ Hm), He. cbn. split; [done|].
  unfold Object_keys. apply list_elem_of_fmap.
  exists (s, q). split; [done|]. by apply elem_of_map_to_list.
Qed.

(** X4: A stored watch-list that does not parse is read as empty, written back
    as the empty list by the first render, and rebuilt from the quantity
    keys by the load after that. *)
Theorem unreadable_watchlist_rebuilt_on_second_load (ls : LocalStorage) :
  finance_portfolio_symbols ls = Unparseable ->
  init_stockQuantities ls <> ∅ ->
  mySymbols (mountApp ls) = [] /\
  finance_portfolio_symbols (storage (mountApp ls)) = Json [] /\
  mySymbols (mountApp (storage (mountApp ls))) =
    Object_keys (init_stockQuantities ls) /\
  mySymbols (mountApp (storage (mountApp ls))) <> [].
Proof.
  intros Hu Hq.
  assert (He : mySymbols (mountApp ls) = []).
  { unfold mountApp, initialState, init_mySymbols. by rewrite Hu. }
  assert (Hk : stockQuantities (mountApp ls) = init_stockQuantities ls).
  { unfold mountApp, initialState. by destruct (init_mySymbols ls). }
  split; [done|]. split.
  { change (finance_portfolio_symbols (storage (mountApp ls)))
      with (Json (mySymbols (mountApp ls))). by rewrite He. }
  rewrite (reload_symbols _ (mountApp_mirrored ls)), He, Hk.
  split; [done|]. by apply Object_keys_nonempty.
Qed.

Lemma act_quantities (a : Action) (st : AppState) :
  is_quantity_change a = false ->
  stockQuantities (act a st) = stockQuantities st.
Proof.
  destruct a as [v| |s|s q|c|]; cbn; try done.
  - intros _. apply handleAddSymbol_frame.
  - intros _. unfold handleAnalyzePortfolio. destruct (mySymbols st); [done|].
    by destruct (analyzePortfolio _ _).
Qed.

(** X5: Only [handleQuantityChange] touches the quantities: through any
    sequence of typing, adding, removing, analysing and saving, every
    holding quantity stays what it was, so a symbol that is removed and
    added again finds its quantity. *)
Theorem quantities_survive_other_actions (l : list Action) (st : AppState) :
  Forall (fun a => is_quantity_change a = false) l ->
  stockQuantities (acts l st) = stockQuantities st.
Proof.
  revert st. induction l as [|a l IH]; intros st H; [done|].
  apply Forall_cons in H as [Ha Hl]. cbn.
  rewrite IH by done. by apply act_quantities.
Qed.

End Reload.

Section ReloadWitnesses.

Import App Shell.

Lemma reload_keeps_watchlist_witness :
  mySymbols (mountApp (storage (acts [TypeSymbols "2317"; AddSymbol]
                                  (mountApp Sample.lost_watchlist)))) =
  mySymbols (acts [TypeSymbols "2317"; AddSymbol]
               (mountApp Sample.lost_watchlist)).
Proof.
  apply (reload_keeps_watchlist Sample.lost_watchlist
           [TypeSymbols "2317"; AddSymbol]).
  left. vm_compute. discriminate.
Defined.

Lemma removed_last_symbol_witness :
  "2330" ∈ mySymbols (mountApp (storage
             (handleRemoveSymbol "2330" (acts [] (mountApp Sample.lost_watchlist))))).
Proof.
  apply (removed_last_symbol_returns Sample.lost_watchlist [] "2330").
  - reflexivity.
  - exists (of_Z 100). reflexivity.
Defined.

Lemma unreadable_watchlist_second_load_witness :
  mySymbols (mountApp (storage (mountApp Sample.corrupt_watchlist))) <> [].
Proof.
  apply (unreadable_watchlist_rebuilt_on_second_load Sample.corrupt_watchlist).
  - reflexivity.
  - apply map_non_empty_singleton.
Defined.

Lemma quantities_survive_witness :
  stockQuantities (acts [RemoveSymbol "2330"; TypeSymbols "2330"; AddSymbol]
                     Sample.analysed) = Sample.one_holding.
Proof.
  apply (quantities_survive_other_actions
           [RemoveSymbol "2330"; TypeSymbols "2330"; AddSymbol] Sample.analysed).
  repeat constructor.
Defined.

End ReloadWitnesses.

(* ===================================================================== *)
(** * How the handlers compose *)
(* ===================================================================== *)

Section HandlerAlgebra.

Import JsString JsText GeminiService App Shell.

Lemma filter_none {A} (P : A -> Prop) `{!forall x, Decision (P x)}
    (l : list A) :
  (forall x, x ∈ l -> ~ P x) -> filter P l = [].
Proof.
  induction l as [|x l IH]; intros Hno; [done|].
  rewrite filter_cons_False by (apply Hno; by left).
  apply IH. intros y Hy. apply Hno. by right.
Qed.

Lemma uniqueNewSymbols_app (symbols : list string) (input : string) :
  uniqueNewSymbols (symbols ++ uniqueNewSymbols symbols input) input = [].
Proof.
  unfold uniqueNewSymbols. apply filter_none. intros x Hx Hnot.
  apply Hnot, elem_of_app.
  destruct (decide (x ∈ symbols)) as [|Hn]; [by left|right].
  by apply list_elem_of_filter.
Qed.

(** X6: Submitting the same text a second time adds nothing: every token is
    by then in the watch-list, and the state stays as it is. *)
Theorem addSymbols_twice (input : string) (st : AppState) :
  let st1 := handleAddSymbol (setInputSymbol input st) in
  handleAddSymbol (setInputSymbol input st1) = setInputSymbol input st1.
Proof.
  cbn zeta. apply handleAddSymbol_nothing_new.
  cbn [setInputSymbol mySymbols inputSymbol].
  rewrite handleAddSymbol_symbols. cbn [setInputSymbol mySymbols inputSymbol].
  apply uniqueNewSymbols_app.
Qed.

(** X7: The watch-list stays free of duplicates exactly when the tokens that
    are new, once cleaned, are pairwise different. *)
Theorem addSymbols_NoDup_iff (st : AppState) :
  NoDup (mySymbols st) ->
  (NoDup (mySymbols (handleAddSymbol st)) <->
   NoDup (uniqueNewSymbols (mySymbols st) (inputSymbol st))).
Proof.
  intros Hnd. rewrite handleAddSymbol_symbols, NoDup_app.
  split; [by intros (_ & _ & H)|]. intros H. split; [done|]. split; [|done].
  intros x Hx [Hnot _]%list_elem_of_filter. by apply Hnot.
Qed.

Lemma upper_char_whitespace (c : ascii) :
  is_whitespace (upper_char c) = is_whitespace c.
Proof. destruct c as [[] [] [] [] [] [] [] []]; reflexivity. Qed.

Lemma upper_char_clean (c : ascii) :
  is_separator c = false ->
  is_separator (upper_char c) = false /\ is_lower (upper_char c) = false.
Proof. destruct c as [[] [] [] [] [] [] [] []]; cbn; done. Qed.

Lemma trimStart_upper (s : string) :
  trimStart (toUpperCase s) = toUpperCase (trimStart s).
Proof.
  induction s as [|c s IH]; [done|]. cbn.
  rewrite upper_char_whitespace. by destruct (is_whitespace c).
Qed.

Lemma toUpperCase_empty (s : string) :
  toUpperCase s = EmptyString <-> s = EmptyString.
Proof. by destruct s. Qed.

Lemma trimEnd_upper (s : string) :
  trimEnd (toUpperCase s) = toUpperCase (trimEnd s).
Proof.
  induction s as [|c s IH]; [done|]. cbn. rewrite IH, upper_char_whitespace.
  destruct (trimEnd s) as [|d u]; cbn; [|done].
  by destruct (is_whitespace c).
Qed.

Lemma trim_upper (s : string) : trim (toUpperCase s) = toUpperCase (trim s).
Proof. unfold trim. by rewrite trimStart_upper, trimEnd_upper. Qed.

Lemma trimEnd_idem (s : string) : trimEnd (trimEnd s) = trimEnd s.
Proof.
  induction s as [|c s IH]; [done|]. cbn.
  destruct (trimEnd s) as [|d u] eqn:E.
  - destruct (is_whitespace c) eqn:Hc; [done|]. cbn. by rewrite Hc.
  - cbn [trimEnd]. cbn [trimEnd] in IH. by rewrite IH.
Qed.

Lemma trimStart_starts (s : string) :
  match trimStart s with
  | EmptyString => True
  | String c _ => is_whitespace c = false
  end.
Proof.
  induction s as [|c s IH]; [done|]. cbn.
  by destruct (is_whitespace c) eqn:Hc.
Qed.

Lemma trimStart_trimEnd (s : string) :
  match s with
  | EmptyString => True
  | String c _ => is_whitespace c = false
  end ->
  trimStart (trimEnd s) = trimEnd s.
Proof.
  destruct s as [|c s]; [done|]. intros Hc. cbn.
  destruct (trimEnd s); rewrite ?Hc; cbn; by rewrite Hc.
Qed.

Lemma trim_idem (s : string) : trim (trim s) = trim s.
Proof.
  unfold trim. rewrite trimStart_trimEnd by apply trimStart_starts.
  apply trimEnd_idem.
Qed.

Lemma Forall_trimStart (P : ascii -> Prop) (s : string) :
  Forall P (list_ascii_of_string s) ->
  Forall P (list_ascii_of_string (trimStart s)).
Proof.
  induction s as [|c s IH]; [done|]. cbn. intros [Hc Hs]%Forall_cons.
  destruct (is_whitespace c); [by apply IH|by constructor].
Qed.

Lemma Forall_trimEnd (P : ascii -> Prop) (s : string) :
  Forall P (list_ascii_of_string s) ->
  Forall P (list_ascii_of_string (trimEnd s)).
Proof.
  induction s as [|c s IH]; [done|]. cbn. intros [Hc Hs]%Forall_cons.
  specialize (IH Hs). destruct (trimEnd s) as [|d u].
  - destruct (is_whitespace c); [done|]. cbn. by constructor.
  - cbn. by constructor.
Qed.

Lemma Forall_toUpperCase (s : string) :
  Forall (fun c => is_separator c = false) (list_ascii_of_string s) ->
  Forall (fun c => is_separator c = false /\ is_lower c = false)
    (list_ascii_of_string (toUpperCase s)).
Proof.
  induction s as [|c s IH]; [done|]. cbn. intros [Hc Hs]%Forall_cons.
  constructor; [by apply upper_char_clean|by apply IH].
Qed.

Lemma corrected_normalized (t : string) :
  Forall (fun c => is_separator c = false) (list_ascii_of_string t) ->
  Reference.correct_symbol (toUpperCase (trim t)) <> EmptyString ->
  normalized (Reference.correct_symbol (toUpperCase (trim t))).
Proof.
  intros Ht. unfold Reference.correct_symbol. case_decide as H304.
  - intros _. split; [done|]. split; [|reflexivity].
    cbn. repeat constructor.
  - intros Hne. split; [done|]. split.
    + by apply Forall_toUpperCase, Forall_trimEnd, Forall_trimStart.
    + by rewrite trim_upper, trim_idem.
Qed.

(** X8: Every symbol [handleAddSymbol] appends is in normal form: it is not
    empty, holds no comma, no space and no lower-case letter, and has no
    white space at either end. *)
Theorem added_symbols_normalized (st : AppState) (s : string) :
  s ∈ mySymbols (handleAddSymbol st) ->
  s ∈ mySymbols st \/ normalized s.
Proof.
  rewrite handleAddSymbol_symbols. intros [H|H]%elem_of_app; [by left|right].
  rewrite uniqueNewSymbols_addSymbols in H. unfold Reference.addSymbols in H.
  apply list_elem_of_filter in H as [_ H].
  apply list_elem_of_filter in H as [Hne H].
  apply list_elem_of_fmap in H as (t & -> & Ht).
  apply corrected_normalized; [|done].
  by apply (fields_token is_separator (inputSymbol st)).
Qed.

(** X9: Removing a symbol twice is removing it once, and two removals can be
    done in either order: the watch-list, the analysis collection and
    storage end up the same. *)
Theorem removeSymbol_idempotent_commutes (a b : string) (st : AppState) :
  handleRemoveSymbol a (handleRemoveSymbol a st) = handleRemoveSymbol a st /\
  handleRemoveSymbol a (handleRemoveSymbol b st) =
  handleRemoveSymbol b (handleRemoveSymbol a st).
Proof.
  unfold handleRemoveSymbol. cbn. split.
  - rewrite !list_filter_filter_l by done. done.
  - rewrite !list_filter_filter.
    rewrite (list_filter_iff (fun s => s <> a /\ s <> b)
               (fun s => s <> b /\ s <> a)) by (intros; tauto).
    rewrite (list_filter_iff (fun s => symbol s <> a /\ symbol s <> b)
               (fun s => symbol s <> b /\ symbol s <> a)) by (intros; tauto).
    done.
Qed.


(** X11: [hasPendingSymbols] is false exactly when every symbol of the
    watch-list has an entry in the analysis collection; the two early
    returns agree with that rule. *)
Theorem hasPendingSymbols_false_iff (st : AppState) :
  hasPendingSymbols st = false <->
  forall s, s ∈ mySymbols st -> s ∈ symbol <$> portfolioStocks st.
Proof.
  rewrite <- not_true_iff_false, hasPendingSymbols_pendingSymbols.
  unfold pendingSymbols. split.
  - intros H s Hs. destruct (decide (s ∈ symbol <$> portfolioStocks st))
      as [|Hn]; [done|].
    exfalso. apply H. intros E.
    by apply (filter_nil_not_elem_of _ _ s E Hn).
  - intros H Hne. apply Hne. apply filter_none. intros x Hx Hn.
    by apply Hn, H.
Qed.

End HandlerAlgebra.

Section HandlerWitnesses.

Import App Shell.

Lemma addSymbols_NoDup_witness :
  NoDup (mySymbols (handleAddSymbol (Sample.typing "2330, 2317"))).
Proof.
  apply (addSymbols_NoDup_iff (Sample.typing "2330, 2317")).
  - constructor.
  - vm_compute. repeat constructor; intros H;
      repeat (apply elem_of_cons in H as [H|H]; [discriminate|]);
      by apply elem_of_nil in H.
Defined.

Lemma added_symbols_witness :
  "AAPL" ∈ mySymbols (Sample.typing " aapl") \/ normalized "AAPL".
Proof.
  apply (added_symbols_normalized (Sample.typing " aapl") "AAPL").
  vm_compute. constructor.
Defined.


Lemma hasPendingSymbols_witness :
  hasPendingSymbols Sample.analysed = false.
Proof.
  apply (hasPendingSymbols_false_iff Sample.analysed).
  intros s Hs. exact Hs.
Defined.

End HandlerWitnesses.

(* ===================================================================== *)
(** * The credential *)
(* ===================================================================== *)

Section CredentialFacts.

Import JsString GeminiService App Credential Shell.

Lemma getApiKey_stored (key : string) (env : Env) :
  key <> EmptyString -> getApiKey (Some key) env = Some key.
Proof. by destruct key. Qed.


(** X13: On mount the key dialog opens exactly when [getApiKey] would find no
    key: the check of the component and the lookup of the service agree. *)
Theorem dialog_opens_iff_no_key (env : Env) (answer : Completion)
    (sh : ShellState) :
  showApiKeyModal sh = false ->
  (showApiKeyModal (checkApiKey env answer sh) = true <->
   getApiKey (gemini_api_key sh) env = None).
Proof.
  intros Hm. unfold checkApiKey, getApiKey, handleFetchTrends.
  destruct (truthy_string (gemini_api_key sh)),
    (truthy_string (API_KEY env)), (truthy_string (VITE_API_KEY env));
    try destruct (analyzeMarketTrends _); cbn; rewrite ?Hm; done.
Qed.

(** X14: Without a key neither request reaches the network: whatever the
    service would answer, the trends and the analysis collection stay as
    they are, storage is not written, and the error message of the
    operation is shown. *)
Theorem no_key_no_change (env : Env) (answer : Completion) (sh : ShellState) :
  getApiKey (gemini_api_key sh) env = None ->
  mySymbols (app sh) <> [] ->
  trendStocks (handleFetchTrends env answer sh) = trendStocks sh /\
  errorMsg (app (handleFetchTrends env answer sh)) = Some msg_trends_failed /\
  portfolioStocks (app (analyzeWithKey env answer sh)) =
    portfolioStocks (app sh) /\
  storage (app (analyzeWithKey env answer sh)) = storage (app sh) /\
  errorMsg (app (analyzeWithKey env answer sh)) = Some msg_analysis_failed.
Proof.
  intros Hk Hs. unfold handleFetchTrends, analyzeWithKey, request.
  rewrite Hk. cbn. unfold handleAnalyzePortfolio, analyzePortfolio.
  by destruct (mySymbols (app sh)).
Qed.

(** X15: Fetching the trends never touches the watch-list, the quantities, the
    analysis collection or storage, however the request ends. *)
Theorem fetchTrends_leaves_collections (env : Env) (answer : Completion)
    (sh : ShellState) :
  let st' := app (handleFetchTrends env answer sh) in
  mySymbols st' = mySymbols (app sh) /\
  stockQuantities st' = stockQuantities (app sh) /\
  portfolioStocks st' = portfolioStocks (app sh) /\
  storage st' = storage (app sh) /\
  (answer = Fulfilled (Some NotJson) ->
   getApiKey (gemini_api_key sh) env <> None ->
   trendStocks (handleFetchTrends env answer sh) = [] /\
   errorMsg st' = None).
Proof.
  cbn zeta. unfold handleFetchTrends.
  destruct (analyzeMarketTrends _) eqn:E; cbn; split_and!; try done.
  - intros -> Hk. unfold request in E.
    destruct (getApiKey _ _); [|done]. cbn in E. by simplify_eq.
  - intros -> Hk. unfold request in E.
    destruct (getApiKey _ _); [|done]. by cbn in E.
Qed.

(** X16: The price rule follows the clock: with minutes below 60, the closing
    price is asked for from 13:30 on, the previous close before 09:00, and
    the real-time price in between; [hour * 100 + minute] orders times as
    minutes of the day do. *)
Theorem priceRule_by_clock (hour minute : Z) :
  (0 <= minute < 60)%Z ->
  let t := (hour * 60 + minute)%Z in
  (priceRule hour minute = ClosingPrice <-> (13 * 60 + 30 <= t)%Z) /\
  (priceRule hour minute = PreviousClose <-> (t < 9 * 60)%Z) /\
  (priceRule hour minute = RealTimePrice <->
   (9 * 60 <= t < 13 * 60 + 30)%Z).
Proof.
  intros Hm t. subst t. unfold priceRule.
  destruct (hour * 100 + minute >=? 1330)%Z eqn:E1;
    [|destruct (hour * 100 + minute <? 900)%Z eqn:E2];
    (split_and!; split; intros H; try done; lia).
Qed.

End CredentialFacts.

Section CredentialWitnesses.

Import GeminiService App Credential Shell.


Lemma dialog_opens_witness :
  showApiKeyModal
    (checkApiKey (mkEnv None None) Rejected
       (mkShell Sample.analysed [] false false "" None)) = true.
Proof.
  apply (dialog_opens_iff_no_key (mkEnv None None) Rejected
           (mkShell Sample.analysed [] false false "" None));
    reflexivity.
Defined.

Lemma no_key_witness :
  portfolioStocks
    (app (analyzeWithKey (mkEnv None None)
            (Fulfilled (Some (JsonArray [])))
            (mkShell Sample.analysed [] false false "" None))) = [Sample.tsmc].
Proof.
  apply (no_key_no_change (mkEnv None None) (Fulfilled (Some (JsonArray [])))
           (mkShell Sample.analysed [] false false "" None)).
  - reflexivity.
  - discriminate.
Defined.

Lemma fetchTrends_witness :
  trendStocks
    (handleFetchTrends (mkEnv (Some "k") None) (Fulfilled (Some NotJson))
       (mkShell Sample.analysed [Sample.tsmc] false false "" None)) = [].
Proof.
  apply (fetchTrends_leaves_collections (mkEnv (Some "k") None)
           (Fulfilled (Some NotJson))
           (mkShell Sample.analysed [Sample.tsmc] false false "" None)).
  - reflexivity.
  - discriminate.
Defined.

Lemma priceRule_witness : priceRule 13 30 = ClosingPrice.
Proof. apply (priceRule_by_clock 13 30); lia. Defined.

End CredentialWitnesses.

(* ===================================================================== *)
(** * The stock table *)
(* ===================================================================== *)

Section StockTableFacts.

Import JsString JsText StockTable.

Lemma includes_empty (s : string) : includes s EmptyString = true.
Proof. by destruct s. Qed.

Lemma filter_all {A} (f : A -> bool) (l : list A) :
  (forall x, f x = true) -> List.filter f l = l.
Proof.
  intros Hf. induction l as [|x l IH]; [done|]. cbn. by rewrite Hf, IH.
Qed.

Lemma lower_upper_char (c : ascii) : lower_char (upper_char c) = lower_char c.
Proof. destruct c as [[] [] [] [] [] [] [] []]; reflexivity. Qed.

Lemma lower_lower_char (c : ascii) : lower_char (lower_char c) = lower_char c.
Proof. destruct c as [[] [] [] [] [] [] [] []]; reflexivity. Qed.

Lemma toLowerCase_toUpperCase (s : string) :
  toLowerCase (toUpperCase s) = toLowerCase s.
Proof.
  induction s as [|c s IH]; [done|]. cbn. by rewrite lower_upper_char, IH.
Qed.

Lemma toLowerCase_idem (s : string) :
  toLowerCase (toLowerCase s) = toLowerCase s.
Proof.
  induction s as [|c s IH]; [done|]. cbn. by rewrite lower_lower_char, IH.
Qed.

(** X17: With no search text and the filter on ['ALL'] the table shows every
    stock, in order; its grand total is then the portfolio value the
    retirement tab computes from the same stocks and quantities; and the
    two summary lists are the table's BUY and SELL filters. *)
Theorem unfiltered_table_is_whole_portfolio
    (stocks : list StockAnalysis) (quantities : gmap string num) :
  filteredStocks stocks "" ALL = stocks /\
  displayedTotal (Some quantities) (filteredStocks stocks "" ALL) =
    RetirementCalc.portfolioTotalValue
      (RetirementCalc.mkProps stocks quantities) /\
  buyList stocks = filteredStocks stocks "" (Only BUY) /\
  sellList stocks = filteredStocks stocks "" (Only SELL).
Proof.
  assert (Hall : filteredStocks stocks "" ALL = stocks).
  { apply filter_all. intros x. unfold matches. cbn.
    by rewrite includes_empty. }
  split; [done|]. rewrite Hall. split; [done|].
  unfold buyList, sellList, filteredStocks. split;
    apply List.filter_ext; intros x; unfold matches; cbn;
    by rewrite includes_empty.
Qed.

(** X18: The search does not look at case: a search text gives the same rows
    typed in upper case, in lower case or as it is. *)
Theorem search_ignores_case
    (stocks : list StockAnalysis) (text : string) (f : FilterType) :
  filteredStocks stocks (toUpperCase text) f = filteredStocks stocks text f /\
  filteredStocks stocks (toLowerCase text) f = filteredStocks stocks text f.
Proof.
  unfold filteredStocks, matches. split; apply List.filter_ext; intros x.
  - by rewrite toLowerCase_toUpperCase.
  - by rewrite toLowerCase_idem.
Qed.

Lemma filter_sublist {A} (f : A -> bool) (l : list A) :
  sublist (List.filter f l) l.
Proof.
  induction l as [|x l IH]; [done|]. cbn.
  destruct (f x); by constructor.
Qed.

Lemma matches_eq (text : string) (f : FilterType) (x : StockAnalysis) :
  matches text f x =
  (includes (toLowerCase (symbol x)) (toLowerCase text) ||
   includes (toLowerCase (name x)) (toLowerCase text)) &&
  match f with
  | ALL => true
  | Only r => bool_decide (recommendation x = r)
  end.
Proof. reflexivity. Qed.

(** X19: The rows shown are rows of the input in their original order, each
    matches the search text in its symbol or its name and carries the
    chosen recommendation, and the three recommendation filters split the
    rows of ['ALL'] among them. *)
Theorem filtered_rows_sound
    (stocks : list StockAnalysis) (text : string) (f : FilterType) :
  sublist (filteredStocks stocks text f) stocks /\
  (forall s, In s (filteredStocks stocks text f) ->
     (includes (toLowerCase (symbol s)) (toLowerCase text) = true \/
      includes (toLowerCase (name s)) (toLowerCase text) = true) /\
     match f with ALL => True | Only r => recommendation s = r end) /\
  length (filteredStocks stocks text ALL) =
    length (filteredStocks stocks text (Only BUY)) +
    length (filteredStocks stocks text (Only SELL)) +
    length (filteredStocks stocks text (Only HOLD)).
Proof.
  split; [apply filter_sublist|]. split.
  - intros s [_ Hm]%List.filter_In. unfold matches in Hm.
    apply andb_true_iff in Hm as [Hs Hf]. split.
    + by apply orb_true_iff in Hs.
    + destruct f; [done|]. by apply bool_decide_eq_true in Hf.
  - unfold filteredStocks. induction stocks as [|x l IH]; [done|].
    cbn [List.filter]. rewrite !(matches_eq text _ x).
    destruct (_ || _); cbn [andb]; [|exact IH].
    destruct (recommendation x); repeat case_bool_decide; try done;
      cbn [length]; lia.
Qed.

End StockTableFacts.

(* ===================================================================== *)
(** * The price schematic *)
(* ===================================================================== *)

Section ChartFacts.

Import JsMath AnalysisChart.

Variable Math_PI : num.
Variable Math_sin : num -> num.

Lemma clamp_band (l h : Qc) (e : num) :
  (l <= h)%Qc ->
  Math_max (Fin l) (Math_min (Fin h) e) = NaN \/
  exists q, Math_max (Fin l) (Math_min (Fin h) e) = Fin q /\
            (l <= q)%Qc /\ (q <= h)%Qc.
Proof.
  intros Hlh. destruct e as [x| | |]; cbn.
  - right. case_bool_decide as H1; cbn.
    + rewrite bool_decide_eq_true_2 by done. exists h.
      split_and!; first [done | apply Qcle_refl].
    + apply Qcnot_le_lt in H1. case_bool_decide as H2.
      * exists x. split_and!; first [done | by apply Qclt_le_weak].
      * exists l. split_and!; first [done | apply Qcle_refl].
  - right. rewrite bool_decide_eq_true_2 by done. exists h.
    split_and!; first [done | apply Qcle_refl].
  - right. exists l. split_and!; first [done | apply Qcle_refl].
  - by left.
Qed.

(** X20: The schematic has 20 points named T-20 down to T-1; when the 52-week
    low is not above the high, every point but the last has a price inside
    the band from low to high (or NaN when the estimate is), whatever the
    sine contributes; the last point is the current price exactly, even
    outside the band. *)
Theorem schematic_stays_in_band (data : StockAnalysis) (l h : Qc) :
  low52Week data = Fin l ->
  high52Week data = Fin h ->
  (l <= h)%Qc ->
  let cd := chartData Math_PI Math_sin data in
  length cd = 20 /\
  (forall i, i < 20 -> fst <$> cd !! i = Some ("T-" +:+ pretty (20 - Z.of_nat i)%Z)) /\
  (forall i p, i < 19 -> snd <$> cd !! i = Some p ->
     p = NaN \/ exists q, p = Fin q /\ (l <= q)%Qc /\ (q <= h)%Qc) /\
  snd <$> cd !! 19 = Some (currentPrice data).
Proof.
  intros Hl Hh Hlh cd. subst cd. unfold chartData.
  change (Z.to_nat points) with 20.
  set (from := (fun i => chart_point Math_PI Math_sin data (Z.of_nat i))
                 <$> seq 0 20).
  assert (Hlen : length from = 20) by (unfold from; by rewrite length_fmap, length_seq).
  rewrite Hlen. change (20 - 1) with 19.
  assert (Hfrom : forall i, i < 20 ->
            from !! i = Some (chart_point Math_PI Math_sin data (Z.of_nat i))).
  { intros i Hi. unfold from. rewrite list_lookup_fmap.
    rewrite lookup_seq_lt by lia. done. }
  split; [by rewrite length_alter|]. split_and!.
  - intros i Hi. destruct (decide (i = 19)) as [->|Hne].
    + rewrite list_lookup_alter_eq, (Hfrom 19) by lia. done.
    + rewrite list_lookup_alter_ne, (Hfrom i) by done. done.
  - intros i p Hi. rewrite list_lookup_alter_ne by lia.
    rewrite (Hfrom i) by lia. cbn. intros [= <-].
    rewrite Hl, Hh. by apply clamp_band.
  - rewrite list_lookup_alter_eq, (Hfrom 19) by lia. done.
Qed.

End ChartFacts.

Lemma schematic_witness :
  length (AnalysisChart.chartData zero (fun _ => zero) Sample.tsmc) = 20.
Proof.
  apply (schematic_stays_in_band zero (fun _ => zero) Sample.tsmc
           (Qc_of_Z 500) (Qc_of_Z 700)).
  - reflexivity.
  - reflexivity.
  - discriminate.
Defined.

(* ===================================================================== *)
(** * RetirementCalc: renders, storage and the portfolio value *)
(* ===================================================================== *)

Section RetirementFacts.

Import RetirementCalc RetirementChart.

Variable currentYear : Z.

Lemma commit_plan_id_le (props : Props) (f : Fiber) :
  plan_id (commit currentYear props f) <= S (plan_id f).
Proof. unfold commit. cbn. case_match; lia. Qed.

(** X21: The effects cannot loop: from any state three commits reach a state
    that further commits leave alone, and [setPlan] is called at most
    twice on the way. *)
Theorem effects_settle (props : Props) (f : Fiber) :
  commit currentYear props (settle currentYear props f) =
    settle currentYear props f /\
  plan_id (settle currentYear props f) <= plan_id f + 2 /\
  sync_deps (settle currentYear props f) =
    Some (cashSavings (settle currentYear props f), portfolioTotalValue props).
Proof.
  split; [apply settle_stable|].
  change (settle currentYear props f) with
    (commit currentYear props
       (commit currentYear props (commit currentYear props f))).
  set (f1 := commit currentYear props f).
  set (f2 := commit currentYear props f1).
  assert (H1 : sync_deps f1 <> None) by done.
  assert (C2 : cashSavings f2 = cashSavings f1) by by apply commit_cash.
  assert (S2 : sync_deps f2 = Some (cashSavings f2, portfolioTotalValue props)).
  { rewrite C2. apply commit_deps. }
  destruct (commit_plan_same currentYear props f2 S2) as [_ I3].
  assert (C3 : cashSavings (commit currentYear props f2) = cashSavings f2).
  { apply commit_cash. by rewrite S2. }
  split.
  - rewrite I3. assert (Ha := commit_plan_id_le props f1).
    assert (Hb := commit_plan_id_le props f). fold f1 in Hb. fold f2 in Ha.
    lia.
  - rewrite C3. apply commit_deps.
Qed.

Lemma commit_persisted (props : Props) (f : Fiber) :
  persisted f -> persisted (commit currentYear props f).
Proof.
  unfold persisted. rewrite (proj2 (commit_deps currentYear props f)).
  intros H. unfold commit. cbn.
  destruct (bool_decide (sync_deps f <> _) && _) eqn:Eset.
  - split; [lia|]. intros E. lia.
  - split; [lia|]. intros _.
    destruct (decide (persist_dep f = Some (plan_id f))) as [Hd|Hd].
    + rewrite bool_decide_eq_false_2 by (intros E; by apply E).
      rewrite Hd in H. by apply H.
    + by rewrite bool_decide_eq_true_2.
Qed.

Lemma dispatch_persisted (e : Event) (f : Fiber) :
  persisted f -> persisted (dispatch e f).
Proof.
  unfold persisted. destruct e; cbn; try done;
    (destruct (persist_dep f) as [k|]; [|done]; intros [Hk _];
     split; [lia|intros E; lia]).
Qed.

Lemma run_persisted (es : list Event) (c : Fiber * Props) :
  persisted c.1 -> persisted (run currentYear es c).1.
Proof.
  revert c. induction es as [|e es IH]; intros c Hc; [done|].
  cbn [run fold_left]. apply (IH (step currentYear e c)).
  unfold step, settle. cbn [fst snd Nat.iter].
  by do 3 apply commit_persisted; apply dispatch_persisted.
Qed.

(** X22: Once the effects of a change have run, the plan in local storage is
    the plan of the state: after mounting and after any sequence of edits
    and portfolio changes nothing of the plan is left unsaved. *)
Theorem stored_plan_is_current
    (saved : Stored PlanJson) (props0 : Props) (es : list Event) :
  let c := run currentYear es (mount currentYear saved props0) in
  saved_plan c.1 = Json (stringify_plan (plan c.1)).
Proof.
  cbn zeta.
  assert (Hp : persisted (run currentYear es (mount currentYear saved props0)).1).
  { apply run_persisted. unfold mount, settle. cbn [fst Nat.iter].
    by do 3 apply commit_persisted. }
  destruct (run_settled currentYear es _ (mount_settled currentYear saved props0))
    as [Hst _].
  assert (Hd := proj2 (commit_deps currentYear
    (run currentYear es (mount currentYear saved props0)).2
    (run currentYear es (mount currentYear saved props0)).1)).
  rewrite Hst in Hd. unfold persisted in Hp. rewrite Hd in Hp.
  by apply Hp.
Qed.

Lemma or_default_kept (a d : num) :
  kept d -> (or_default (json_num a) d = a <-> kept a).
Proof.
  intros (qd & -> & Hd). destruct a as [q| | |]; cbn.
  - case_bool_decide as Hq.
    + split; [intros _; by exists q|done].
    + subst q. split.
      * intros [= E]. by destruct Hd.
      * by intros (q' & [= <-] & H).
  - split; [done|by intros (q' & [=] & _)].
  - split; [done|by intros (q' & [=] & _)].
  - split; [done|by intros (q' & [=] & _)].
Qed.

Lemma or_default_Z_kept (z d : Z) :
  d <> 0%Z -> (or_default_Z (Some z) d = z <-> z <> 0%Z).
Proof.
  intros Hd. unfold or_default_Z. destruct (Z.eqb_spec z 0) as [->|Hz].
  - split; [done|]. by intros H.
  - done.
Qed.

Lemma kept_of_Z (z : Z) : z <> 0%Z -> kept (of_Z z).
Proof. intros Hz. exists (Qc_of_Z z). split; [done|]. by apply Qc_of_Z_ne0. Qed.

Lemma kept_rate : kept (of_frac 25 10).
Proof. eexists. split; [done|]. discriminate. Qed.

(** X23: A plan written to storage and read back by the initialiser is the
    same plan exactly when no field is 0 and every number is finite: the
    [||] of the initialiser puts the default in place of a 0, and
    [JSON.stringify] writes NaN and the infinities as [null]. *)
Theorem plan_reload_roundtrip (p : RetirementPlan) :
  initialPlan (Json (stringify_plan p)) = p <-> survives_reload p.
Proof.
  unfold survives_reload. destruct p as [ca ra cs ms tp er ip ir iy].
  cbn [initialPlan stringify_plan currentAge retirementAge currentSavings
       monthlySavings targetMonthlyPension expectedAnnualReturn
       insurancePrincipal insuranceRate insuranceYearDone j_currentAge
       j_retirementAge j_currentSavings j_monthlySavings j_targetMonthlyPension
       j_expectedAnnualReturn j_insurancePrincipal j_insuranceRate
       j_insuranceYearDone].
  assert (K1 := kept_of_Z 1000000). assert (K2 := kept_of_Z 20000).
  assert (K3 := kept_of_Z 50000). assert (K4 := kept_of_Z 6).
  assert (K5 := kept_of_Z 200000). assert (K6 := kept_rate).
  split.
  - intros H. injection H as H1 H2 H3 H4 H5 H6 H7 H8 H9. split_and!.
    + by apply (or_default_Z_kept ca 30).
    + by apply (or_default_Z_kept ra 65).
    + apply (or_default_kept cs (of_Z 1000000)); [by apply K1|done].
    + apply (or_default_kept ms (of_Z 20000)); [by apply K2|done].
    + apply (or_default_kept tp (of_Z 50000)); [by apply K3|done].
    + apply (or_default_kept er (of_Z 6)); [by apply K4|done].
    + apply (or_default_kept ip (of_Z 200000)); [by apply K5|done].
    + by apply (or_default_kept ir (of_frac 25 10)).
    + by apply (or_default_Z_kept iy 2022).
  - intros (H1 & H2 & H3 & H4 & H5 & H6 & H7 & H8 & H9). f_equal.
    + by apply (or_default_Z_kept ca 30).
    + by apply (or_default_Z_kept ra 65).
    + apply (or_default_kept cs (of_Z 1000000)); [by apply K1|done].
    + apply (or_default_kept ms (of_Z 20000)); [by apply K2|done].
    + apply (or_default_kept tp (of_Z 50000)); [by apply K3|done].
    + apply (or_default_kept er (of_Z 6)); [by apply K4|done].
    + apply (or_default_kept ip (of_Z 200000)); [by apply K5|done].
    + by apply (or_default_kept ir (of_frac 25 10)).
    + by apply (or_default_Z_kept iy 2022).
Qed.

(** X24: What a reload does to a 0: savings of 0 come back as 1000000, a
    monthly saving of 0 as 20000 and an expected return of 0 as 6. *)
Theorem zero_fields_reload_as_defaults (p : RetirementPlan) :
  let p' := initialPlan (Json (stringify_plan p)) in
  (currentSavings p = zero -> currentSavings p' = of_Z 1000000) /\
  (monthlySavings p = zero -> monthlySavings p' = of_Z 20000) /\
  (expectedAnnualReturn p = zero -> expectedAnnualReturn p' = of_Z 6).
Proof.
  cbn. split_and!; intros ->; reflexivity.
Qed.

Lemma fold_total_ext (stocks : list StockAnalysis) (q1 q2 : gmap string num)
    (acc : num) :
  (forall s, s ∈ stocks -> q1 !! symbol s = q2 !! symbol s) ->
  fold_left (fun sum stock =>
    (sum + currentPrice stock * or_default (q1 !! symbol stock) zero)%js)
    stocks acc =
  fold_left (fun sum stock =>
    (sum + currentPrice stock * or_default (q2 !! symbol stock) zero)%js)
    stocks acc.
Proof.
  revert acc. induction stocks as [|x l IH]; intros acc H; [done|].
  cbn. rewrite (H x) by by left. apply IH. intros s Hs. apply H. by right.
Qed.

(** X25: A quantity entered for a symbol that has no analysis entry does not
    change the portfolio value. *)
Theorem quantity_without_analysis_is_not_counted
    (stocks : list StockAnalysis) (quantities : gmap string num)
    (sym : string) (qty : num) :
  sym ∉ symbol <$> stocks ->
  portfolioTotalValue (mkProps stocks (<[sym := qty]> quantities)) =
  portfolioTotalValue (mkProps stocks quantities).
Proof.
  intros Hs. unfold portfolioTotalValue. cbn. apply fold_total_ext.
  intros s Hin. apply lookup_insert_ne. intros ->. apply Hs.
  by apply list_elem_of_fmap_2.
Qed.

Lemma fold_total_zero (stocks : list StockAnalysis) (q : gmap string num)
    (acc : Qc) :
  Forall (fun s => exists p, currentPrice s = Fin p) stocks ->
  (forall s, s ∈ stocks -> or_default (q !! symbol s) zero = zero) ->
  fold_left (fun sum stock =>
    (sum + currentPrice stock * or_default (q !! symbol stock) zero)%js)
    stocks (Fin acc) = Fin acc.
Proof.
  induction stocks as [|x l IH]; intros Hp Hq; [done|].
  apply Forall_cons in Hp as [[p Hx] Hl]. cbn [fold_left].
  rewrite (Hq x) by by left.
  assert (E : (Fin acc + currentPrice x * zero)%js = Fin acc).
  { rewrite Hx, zero_Fin. cbn. by rewrite Qcmult_0_r, Qcplus_0_r. }
  rewrite E. apply IH; [done|]. intros s Hs. apply Hq. by right.
Qed.

(** X26: Stocks without a holding count for nothing: when every price is
    finite and every stock has no quantity, a quantity of 0 or a NaN, the
    portfolio value is 0. *)
Theorem no_holdings_no_value
    (stocks : list StockAnalysis) (quantities : gmap string num) :
  Forall (fun s => exists p, currentPrice s = Fin p) stocks ->
  (forall s, s ∈ stocks ->
     quantities !! symbol s = None \/ quantities !! symbol s = Some zero \/
     quantities !! symbol s = Some NaN) ->
  portfolioTotalValue (mkProps stocks quantities) = zero.
Proof.
  intros Hp Hq. unfold portfolioTotalValue. cbn [portfolioStocks stockQuantities].
  change zero with (Fin (Qc_of_Z 0)) at 2 3.
  apply fold_total_zero; [done|]. intros s Hs.
  destruct (Hq s Hs) as [-> | [-> | ->]]; reflexivity.
Qed.

End RetirementFacts.

Section RetirementWitnesses.

Import RetirementCalc RetirementChart.

Lemma plan_reload_witness :
  initialPlan (Json (stringify_plan defaultPlan)) = defaultPlan.
Proof.
  apply (plan_reload_roundtrip defaultPlan).
  unfold survives_reload. cbn.
  split_and!; try discriminate;
    first [by apply kept_of_Z | apply kept_rate].
Defined.

Lemma zero_fields_witness :
  expectedAnnualReturn
    (initialPlan (Json (stringify_plan Sample.zero_rate_plan))) = of_Z 6.
Proof.
  apply (zero_fields_reload_as_defaults Sample.zero_rate_plan). reflexivity.
Defined.

Lemma quantity_without_analysis_witness :
  portfolioTotalValue
    (mkProps [Sample.tsmc] (<["2317" := of_Z 9]> Sample.one_holding)) =
  portfolioTotalValue (mkProps [Sample.tsmc] Sample.one_holding).
Proof.
  apply (quantity_without_analysis_is_not_counted [Sample.tsmc]
           Sample.one_holding "2317" (of_Z 9)).
  intros H. apply list_elem_of_singleton in H. discriminate.
Defined.

Lemma no_holdings_witness :
  portfolioTotalValue (mkProps [Sample.tsmc] ∅) = zero.
Proof.
  apply (no_holdings_no_value [Sample.tsmc] ∅).
  - repeat constructor. by eexists.
  - intros s _. left. apply lookup_empty.
Defined.

End RetirementWitnesses.

(* ===================================================================== *)
(** * The pie chart *)
(* ===================================================================== *)

Section PieChart.

Import RetirementCalc RetirementChart JsMath.

Variable currentYear : Z.

Lemma half_half : (Q2Qc (1 # 2) + Q2Qc (1 # 2))%Qc = 1%Qc.
Proof. apply Qc_is_canon. reflexivity. Qed.

Lemma Qc_of_Z_succ (n : Z) : Qc_of_Z (n + 1) = (Qc_of_Z n + 1)%Qc.
Proof.
  apply Qc_is_canon. cbn. rewrite Qred_correct.
  rewrite inject_Z_plus. reflexivity.
Qed.

(** Rounding moves a value by at most one half. *)
Lemma round_bounds (z : Qc) :
  let r := Qc_of_Z (Qfloor (z + Q2Qc (1 # 2))%Qc) in
  (r <= z + Q2Qc (1 # 2))%Qc /\ (z + Q2Qc (1 # 2) < r + 1)%Qc.
Proof.
  cbn zeta. split.
  - apply Qfloor_le.
  - rewrite <- Qc_of_Z_succ. apply Qlt_floor.
Qed.

Lemma fvLumpSum_Fin (plan : RetirementPlan) (cs e : Qc) :
  currentSavings plan = Fin cs ->
  expectedAnnualReturn plan = Fin e ->
  (retirementAge plan > currentAge plan)%Z ->
  exists L, fvLumpSum plan = Fin L.
Proof.
  intros Hc He Hage. unfold fvLumpSum.
  rewrite Hc, (monthlyRate_Fin _ _ He).
  rewrite Math_pow_nonneg by (unfold months, plan_yearsToRetire; lia).
  rewrite one_Fin. cbn [add]. rewrite pow_nat_Fin. cbn. by eexists.
Qed.

Lemma fvInsurance_Fin (plan : RetirementPlan) (ip ir : Qc) :
  insurancePrincipal plan = Fin ip ->
  insuranceRate plan = Fin ir ->
  exists I, fvInsurance currentYear plan = Fin I.
Proof.
  intros Hp Hr. unfold fvInsurance. rewrite Hp, Hr.
  rewrite div_Fin_of_Z by done.
  rewrite Math_pow_nonneg by (unfold insuranceCompoundingYears; lia).
  rewrite one_Fin. cbn [add]. rewrite pow_nat_Fin. cbn. by eexists.
Qed.

(** X27: The four slices of the pie add up to the projected total, up to the
    two roundings: for a computable plan with finite fields and a non-zero
    expected return, the sum of the slice values differs from
    [totalAccumulated] by at most 1 (numbers taken as exact). *)
Theorem pie_slices_add_up (plan : RetirementPlan) (cs ms e ip ir : Qc) :
  currentSavings plan = Fin cs ->
  monthlySavings plan = Fin ms ->
  expectedAnnualReturn plan = Fin e ->
  e <> 0%Qc ->
  insurancePrincipal plan = Fin ip ->
  insuranceRate plan = Fin ir ->
  (retirementAge plan > currentAge plan)%Z ->
  exists T a b c d,
    totalAccumulated (calcResult currentYear plan) = Fin T /\
    chartData currentYear plan (Some (calcResult currentYear plan)) =
      [Fin a; Fin b; Fin c; Fin d] /\
    (a + b + c + d <= T + 1)%Qc /\ (T < a + b + c + d + 1)%Qc.
Proof.
  intros Hc Hm He Hne Hp Hr Hage.
  destruct (fvLumpSum_Fin plan cs e Hc He Hage) as [L HL].
  destruct (fvMonthly_nonzero_rate plan ms e Hm He Hne Hage) as [HM _].
  destruct (fvInsurance_Fin plan ip ir Hp Hr) as [I HI].
  set (M := (ms * (((1 + e / Qc_of_Z 100 / Qc_of_Z 12) ^
               Z.to_nat ((retirementAge plan - currentAge plan) * 12) - 1) /
               (e / Qc_of_Z 100 / Qc_of_Z 12)))%Qc) in HM.
  set (P := (ms * Qc_of_Z 12 * Qc_of_Z (retirementAge plan - currentAge plan))%Qc).
  set (rI := Qc_of_Z (Qfloor (I + Q2Qc (1 # 2))%Qc)).
  set (X := (L + M + I + - L + - rI + - P)%Qc).
  exists (L + M + I)%Qc, (Qc_of_Z (Qfloor (L + Q2Qc (1 # 2))%Qc)), rI, P,
    (Qc_of_Z (Qfloor (X + Q2Qc (1 # 2))%Qc)).
  assert (Htot : totalAccumulated (calcResult currentYear plan) = Fin (L + M + I)%Qc).
  { cbn. unfold calc_totalAccumulated. by rewrite HL, HM, HI. }
  split; [done|]. split.
  { unfold chartData. rewrite Htot. unfold insuranceFinalValue.
    change (chart_lump plan) with (fvLumpSum plan).
    change (insurancePrincipal plan *
            Math_pow (one + insuranceRate plan / of_Z 100)
              (insuranceCompoundingYears currentYear plan))%js
      with (fvInsurance currentYear plan).
    unfold chart_principal. rewrite HL, HI, Hm. reflexivity. }
  destruct (round_bounds L) as [A1 B1]. destruct (round_bounds X) as [A4 B4].
  cbn zeta in A1, B1, A4, B4. fold rI.
  set (rL := Qc_of_Z (Qfloor (L + Q2Qc (1 # 2))%Qc)) in *.
  set (rX := Qc_of_Z (Qfloor (X + Q2Qc (1 # 2))%Qc)) in *.
  assert (HT : (L + M + I)%Qc = (L + X + (rI + P))%Qc) by (unfold X; ring).
  split.
  - replace (rL + rI + P + rX)%Qc with (rL + rX + (rI + P))%Qc by ring.
    replace (L + M + I + 1)%Qc
      with (L + Q2Qc (1 # 2) + (X + Q2Qc (1 # 2)) + (rI + P))%Qc
      by (rewrite HT, <- half_half; ring).
    apply Qcplus_le_compat; [|apply Qcle_refl].
    by apply Qcplus_le_compat.
  - apply (Qcplus_lt_mono_r _ _ 1%Qc).
    replace (L + M + I + 1)%Qc
      with (L + Q2Qc (1 # 2) + (X + Q2Qc (1 # 2)) + (rI + P))%Qc
      by (rewrite HT, <- half_half; ring).
    replace (rL + rI + P + rX + 1 + 1)%Qc
      with (rL + 1 + (rX + 1) + (rI + P))%Qc by ring.
    apply Qcplus_lt_mono_r.
    apply Qclt_trans with (rL + 1 + (X + Q2Qc (1 # 2)))%Qc.
    + by apply Qcplus_lt_mono_r.
    + by apply Qcplus_lt_mono_l.
Qed.

End PieChart.

Section MoreWitnesses.

Import RetirementCalc RetirementChart StockTable.

Lemma pie_slices_witness :
  exists T a b c d,
    totalAccumulated (calcResult 2026 Sample.one_year_plan) = Fin T /\
    chartData 2026 Sample.one_year_plan
      (Some (calcResult 2026 Sample.one_year_plan)) =
      [Fin a; Fin b; Fin c; Fin d] /\
    (a + b + c + d <= T + 1)%Qc /\ (T < a + b + c + d + 1)%Qc.
Proof.
  apply (pie_slices_add_up 2026 Sample.one_year_plan
           (Qc_of_Z 1000000) (Qc_of_Z 20000) (Qc_of_Z 6)
           (Qc_of_Z 200000) (Q2Qc (25 # 10))).
  - reflexivity.
  - reflexivity.
  - reflexivity.
  - discriminate.
  - reflexivity.
  - reflexivity.
  - cbn. lia.
Defined.

Lemma filtered_rows_witness :
  recommendation Sample.tsmc = HOLD.
Proof.
  apply (filtered_rows_sound [Sample.tsmc] "tsm" (Only HOLD)).
  vm_compute. left. reflexivity.
Defined.

End MoreWitnesses.

Example schematic_last_name :
  fst <$> AnalysisChart.chartData zero (fun _ => zero) Sample.tsmc !! 19 =
  Some "T-1".
Proof. reflexivity. Qed.

Example search_by_name_fragment :
  StockTable.filteredStocks [Sample.tsmc] "SM" StockTable.ALL = [Sample.tsmc] /\
  StockTable.filteredStocks [Sample.tsmc] "23" (StockTable.Only BUY) = [].
Proof. split; reflexivity. Qed.
